(** * Host-object to script-value marshalling (jobject_to_js_value.c)

  A shallow embedding of the JNI-side converter that turns host (JVM)
  objects into QuickJS values, together with the properties of the
  converter that its specification states.

  The host object graph is read-only and may be cyclic, so it is a
  store indexed by object identity.  The script runtime is mutated
  (values are allocated, populated, released, exceptions are thrown),
  so the context is threaded explicitly through every call.  The
  converter is recursive on the depth of the input; the embedding
  bounds that depth by a call-stack budget. *)

From Stdlib Require Import ZArith Lia Ascii String.
From stdpp Require Import base option list strings gmap.

Local Open Scope string_scope.
Local Open Scope list_scope.

(** ** Host object model *)

Module Host.

(** A [jobject] handle: [None] is the NULL reference, [Some a] names
    the object of identity [a]. *)
Definition jref := option nat.

(** The classes the converter tests with [IsInstanceOf]
    (cls_boolean .. cls_throwable of jni_globals_generated.h). *)
Inductive jclass :=
| cls_boolean | cls_integer | cls_long | cls_float | cls_double
| cls_string | cls_list | cls_js_object | cls_map | cls_set
| cls_throwable.

(** What [Throwable.getMessage] and [Throwable.getStackTrace] give:
    the message may be absent; each frame is kept as the text its
    [toString] renders, innermost frame first. *)
Record jthrowable := mk_jthrowable {
  throwable_message : option string;
  throwable_stack_trace : list string
}.

(** An instance of an ordinary (non-final) class.  It may implement
    any of the collection interfaces and may extend Throwable, so the
    views are independent of one another. *)
Record jinstance := mk_jinstance {
  instance_class_name : string;
  instance_list : option (list jref);
  instance_map : option (list (jref * jref));
  instance_set : option (list jref);
  instance_throwable : option jthrowable
}.

(** Host objects.  The boxed primitives and String are final classes;
    JsObject is the library's map delegate, so it is a Map as well.
    Floats are kept as their IEEE bit patterns.  Collections list
    their members in the order the host iterator yields them. *)
Inductive jobject :=
| JBoolean (b : bool)
| JInteger (n : Z)
| JLong (n : Z)
| JFloat (bits : Z)
| JDouble (bits : Z)
| JString (s : string)
| JJsObject (entries : list (jref * jref))
| JInstance (i : jinstance)
| JBooleanArray (elems : list bool)
| JIntArray (elems : list Z)
| JLongArray (elems : list Z)
| JFloatArray (elems : list Z)
| JDoubleArray (elems : list Z)
| JObjectArray (cls_name : string) (elems : list jref).

(** The JNI environment gives access to the host store. *)
Definition JNIEnv := nat -> jobject.

Definition instance_of (o : jobject) (c : jclass) : bool :=
  match o, c with
  | JBoolean _, cls_boolean => true
  | JInteger _, cls_integer => true
  | JLong _, cls_long => true
  | JFloat _, cls_float => true
  | JDouble _, cls_double => true
  | JString _, cls_string => true
  | JJsObject _, cls_js_object => true
  | JJsObject _, cls_map => true
  | JInstance i, cls_list => bool_decide (is_Some (instance_list i))
  | JInstance i, cls_map => bool_decide (is_Some (instance_map i))
  | JInstance i, cls_set => bool_decide (is_Some (instance_set i))
  | JInstance i, cls_throwable => bool_decide (is_Some (instance_throwable i))
  | _, _ => false
  end.

(** JNI [IsInstanceOf]: a NULL reference can be cast to any class. *)
Definition IsInstanceOf (env : JNIEnv) (obj : jref) (c : jclass) : bool :=
  match obj with
  | None => true
  | Some a => instance_of (env a) c
  end.

(** JNI [IsSameObject]: identity of references, not equality of
    contents. *)
Definition IsSameObject (a b : jref) : bool := bool_decide (a = b).

(** [getClass().getName()]. *)
Definition class_name (o : jobject) : string :=
  match o with
  | JBoolean _ => "java.lang.Boolean"
  | JInteger _ => "java.lang.Integer"
  | JLong _ => "java.lang.Long"
  | JFloat _ => "java.lang.Float"
  | JDouble _ => "java.lang.Double"
  | JString _ => "java.lang.String"
  | JJsObject _ => "com.dokar.quickjs.binding.JsObject"
  | JInstance i => instance_class_name i
  | JBooleanArray _ => "[Z"
  | JIntArray _ => "[I"
  | JLongArray _ => "[J"
  | JFloatArray _ => "[F"
  | JDoubleArray _ => "[D"
  | JObjectArray n _ => n
  end.

(** Two's-complement narrowing to the 32-bit [jint]. *)
Definition to_jint (z : Z) : Z := ((z + 2 ^ 31) mod 2 ^ 32 - 2 ^ 31)%Z.

Definition method_boolean_boolean_value (o : jobject) : bool :=
  match o with JBoolean b => b | _ => false end.

(** [CallIntMethod] with the method id of [Integer.intValue].  The id
    names the [Number.intValue] slot, which [Long] overrides by
    narrowing its value; whatever the receiver, the call returns a
    [jint]. *)
Definition method_integer_int_value (o : jobject) : Z :=
  match o with
  | JInteger n => to_jint n
  | JLong n => to_jint n
  | _ => 0%Z
  end.

Definition method_float_float_value (o : jobject) : Z :=
  match o with JFloat f => f | _ => 0%Z end.

Definition method_double_double_value (o : jobject) : Z :=
  match o with JDouble d => d | _ => 0%Z end.

(** [GetStringUTFChars]: undefined on NULL and on a non-string. *)
Definition GetStringUTFChars (env : JNIEnv) (s : jref) : option string :=
  match s with
  | Some a => match env a with JString str => Some str | _ => None end
  | None => None
  end.

(** [List.size]/[List.get] by index. *)
Definition method_list_elements (o : jobject) : list jref :=
  match o with
  | JInstance i => default [] (instance_list i)
  | _ => []
  end.

(** [Set.iterator]: the members in iteration order. *)
Definition method_set_iterator (o : jobject) : list jref :=
  match o with
  | JInstance i => default [] (instance_set i)
  | _ => []
  end.

(** [Map.entrySet().iterator()]: the entries in iteration order, each
    with [getKey] and [getValue]. *)
Definition method_map_entry_set (o : jobject) : list (jref * jref) :=
  match o with
  | JJsObject es => es
  | JInstance i => default [] (instance_map i)
  | _ => []
  end.

Definition method_throwable_get_message (o : jobject) : option string :=
  match o with
  | JInstance i => instance_throwable i ≫= throwable_message
  | _ => None
  end.

Definition method_throwable_get_stack_trace (o : jobject) : list string :=
  match o with
  | JInstance i => default [] (throwable_stack_trace <$> instance_throwable i)
  | _ => []
  end.

End Host.

Export Host.

(** ** Script runtime model *)

Module JS.

(** A C [double] produced by one of the conversions the converter
    performs.  The conversions are exact, so the value is kept as the
    operand it was converted from. *)
Inductive c_double :=
| double_of_jint (n : Z)
| double_of_jfloat (bits : Z)
| double_of_jdouble (bits : Z).

(** Script values.  Objects live in the context's heap and are named
    by their identity; [JS_EXCEPTION] is the sentinel that says an
    exception is pending in the context. *)
Inductive JSValue :=
| JS_NULL
| JS_UNDEFINED
| JS_EXCEPTION
| JS_Bool (b : bool)
| JS_Int32 (n : Z)
| JS_Int64 (n : Z)
| JS_Float64 (d : c_double)
| JS_String (s : string)
| JS_Function (name : string)
| JS_Obj (id : nat).

Definition JS_TRUE := JS_Bool true.
Definition JS_FALSE := JS_Bool false.

(** Heap objects: arrays with their indexed slots, plain objects and
    error objects with their named properties, and the instances a
    global constructor built from the items of its iterable
    argument. *)
Inductive JSObject :=
| JSArray (items : list JSValue)
| JSPlainObject (props : gmap string JSValue)
| JSErrorObject (props : gmap string JSValue)
| JSInstance (ctor : JSValue) (items : list JSValue).

(** Error values built by exception_util.  [new_simple_js_error]
    carries a message only; [new_js_error] carries a name and a
    message (its two trailing arguments are always 0 and NULL
    here). *)
Inductive JSError :=
| new_simple_js_error (message : string)
| new_js_error (name : string) (message : string).

(** The runtime context: the heap of live objects, the next fresh
    identity, the pending exception and the properties of the global
    object. *)
Record JSContext := mk_JSContext {
  heap : gmap nat JSObject;
  next_id : nat;
  exception : option JSError;
  globals : gmap string JSValue
}.

Definition with_heap (ctx : JSContext) (h : gmap nat JSObject) : JSContext :=
  mk_JSContext h (next_id ctx) (exception ctx) (globals ctx).

Definition JS_IsException (v : JSValue) : bool :=
  match v with JS_EXCEPTION => true | _ => false end.

Definition JS_IsUndefined (v : JSValue) : bool :=
  match v with JS_UNDEFINED => true | _ => false end.

(** Modelled from the spec: the value-construction API of the
    scripting engine (quickjs.h) is not part of the sources; it is
    the opaque construction capability of section 6.  Allocation
    hands out a fresh identity and the caller owns the new object. *)
Definition alloc (ctx : JSContext) (o : JSObject) : JSValue * JSContext :=
  (JS_Obj (next_id ctx),
   mk_JSContext (<[next_id ctx := o]> (heap ctx)) (S (next_id ctx))
                (exception ctx) (globals ctx)).

Definition JS_NewArray (ctx : JSContext) := alloc ctx (JSArray []).
Definition JS_NewObject (ctx : JSContext) := alloc ctx (JSPlainObject ∅).
Definition JS_NewError (ctx : JSContext) := alloc ctx (JSErrorObject ∅).

Definition JS_NewBool (b : bool) : JSValue := JS_Bool b.
Definition JS_NewInt32 (n : Z) : JSValue := JS_Int32 n.
Definition JS_NewInt64 (n : Z) : JSValue := JS_Int64 n.
Definition JS_NewFloat64 (d : c_double) : JSValue := JS_Float64 d.
Definition JS_NewString (s : string) : JSValue := JS_String s.
Definition JS_NewAtom (s : string) : string := s.

(** Writing slot [i] of an array: inside the array the slot is
    replaced, past its end the array grows, the gap reading as
    undefined. *)
Definition set_index (items : list JSValue) (i : nat) (v : JSValue)
  : list JSValue :=
  if decide (i < length items)%nat then <[i := v]> items
  else items ++ replicate (i - length items) JS_UNDEFINED ++ [v].

(** Modelled from the spec: the property setters of the scripting
    engine, which is not part of the sources.  The value stored is
    whatever the caller passes, ownership moving to the container. *)
Definition JS_SetPropertyUint32 (ctx : JSContext) (this_obj : JSValue)
    (i : nat) (v : JSValue) : JSContext :=
  match this_obj with
  | JS_Obj id =>
      match heap ctx !! id with
      | Some (JSArray items) =>
          with_heap ctx (<[id := JSArray (set_index items i v)]> (heap ctx))
      | _ => ctx
      end
  | _ => ctx
  end.

Definition JS_SetPropertyStr (ctx : JSContext) (this_obj : JSValue)
    (prop : string) (v : JSValue) : JSContext :=
  match this_obj with
  | JS_Obj id =>
      match heap ctx !! id with
      | Some (JSPlainObject props) =>
          with_heap ctx (<[id := JSPlainObject (<[prop := v]> props)]> (heap ctx))
      | Some (JSErrorObject props) =>
          with_heap ctx (<[id := JSErrorObject (<[prop := v]> props)]> (heap ctx))
      | _ => ctx
      end
  | _ => ctx
  end.

Definition JS_SetProperty := JS_SetPropertyStr.

(** Modelled from the spec: releasing the reference the converter
    holds on a value (quickjs.h is not part of the sources).  Every
    object the converter allocates has that single owner, so the
    release reclaims it; other values are unaffected.  What a
    reclaimed container held is not followed. *)
Definition JS_FreeValue (ctx : JSContext) (v : JSValue) : JSContext :=
  match v with
  | JS_Obj id => with_heap ctx (delete id (heap ctx))
  | _ => ctx
  end.

(** Modelled from the spec: the "raise exception with sentinel value"
    primitive of section 6; the error becomes the pending exception
    of the context. *)
Definition JS_Throw (ctx : JSContext) (err : JSError) : JSContext :=
  mk_JSContext (heap ctx) (next_id ctx) (Some err) (globals ctx).

(** Modelled from the spec: reading a property of the global object,
    undefined when the global object has no such property. *)
Definition JS_GetPropertyStr_global (ctx : JSContext) (name : string) : JSValue :=
  default JS_UNDEFINED (globals ctx !! name).

(** Modelled from the spec: the Map/Set constructor capability of
    section 4.4.  The constructor reads the items of its iterable
    (first) argument and returns a new instance holding them. *)
Definition JS_CallConstructor (ctx : JSContext) (ctor : JSValue)
    (argv : list JSValue) : JSValue * JSContext :=
  let items :=
    match argv with
    | JS_Obj id :: _ =>
        match heap ctx !! id with
        | Some (JSArray items) => items
        | _ => []
        end
    | _ => []
    end in
  alloc ctx (JSInstance ctor items).

(** The object behind a value has been released. *)
Definition released (ctx : JSContext) (v : JSValue) : Prop :=
  match v with
  | JS_Obj id => heap ctx !! id = None
  | _ => True
  end.

(** The object behind a value is still live in the heap. *)
Definition live (ctx : JSContext) (v : JSValue) : Prop :=
  match v with
  | JS_Obj id => is_Some (heap ctx !! id)
  | _ => False
  end.

End JS.

Export JS.

(** ** The converter *)

(** Outcome of a conversion call: a value together with the context it
    leaves, or no outcome at all because the C call stack is exhausted
    (the recursion is as deep as the input is nested) or because a JNI
    call was made outside its contract. *)
Inductive result (A : Type) :=
| Ok (a : A)
| StackExhausted
| JniFault.

Arguments Ok {A} a.
Arguments StackExhausted {A}.
Arguments JniFault {A}.

Definition bind {A B : Type} (r : result A) (k : A -> result B) : result B :=
  match r with
  | Ok a => k a
  | StackExhausted => StackExhausted
  | JniFault => JniFault
  end.

Notation "'let*' p := r 'in' k" := (bind r (fun p => k))
  (at level 10, p pattern, r at level 200, k at level 200).

(** How control leaves a loop of the source: through a [return], through
    a [break], or because the loop condition became false. *)
Inductive loop_exit :=
| LoopReturn (v : JSValue)
| LoopBreak
| LoopEnd.

(** The recursive entry point, as the collection converters see it. *)
Definition converter := JSContext -> jref -> result (JSValue * JSContext).

Definition circular_ref_message : string :=
  "Unable to map objects with circular reference.".

Definition throw_circular_ref_error (context : JSContext) : JSContext :=
  let msg := circular_ref_message in
  let err := new_simple_js_error msg in
  JS_Throw context err.

(** The [for] loop of [java_list_to_js_array], started at index [i] with
    the elements from index [i] on; the boolean is [has_exception]. *)
Fixpoint java_list_loop (convert : converter) (java_list : nat)
    (elements : list jref) (i : nat) (js_array : JSValue)
    (context : JSContext) : result (bool * JSContext) :=
  match elements with
  | [] => Ok (false, context)
  | element :: rest =>
      if IsSameObject (Some java_list) element then
        Ok (true, throw_circular_ref_error context)
      else
        let* (js_element, context) := convert context element in
        if negb (JS_IsException js_element) then
          java_list_loop convert java_list rest (S i) js_array
            (JS_SetPropertyUint32 context js_array i js_element)
        else
          Ok (true, context)
  end.

Definition java_list_to_js_array (convert : converter) (env : JNIEnv)
    (context : JSContext) (java_list : nat) : result (JSValue * JSContext) :=
  let '(js_array, context) := JS_NewArray context in
  let elements := method_list_elements (env java_list) in
  let* (has_exception, context) :=
    java_list_loop convert java_list elements 0 js_array context in
  if has_exception : bool then
    Ok (JS_EXCEPTION, JS_FreeValue context js_array)
  else
    Ok (js_array, context).

Definition constructor_not_found_message (constructor : string) : string :=
  "JS constructor '" +:+ constructor +:+ "' not found.".

(** The source formats the message into a buffer of 100 bytes; the
    constructor names passed here are "Set" and "Map".  The references
    it takes on the global object and on the constructor are given back
    before it returns, whichever branch is taken. *)
Definition new_js_object_from_constructor (context : JSContext)
    (constructor : string) (argv : list JSValue) : JSValue * JSContext :=
  let js_constructor := JS_GetPropertyStr_global context constructor in
  if JS_IsUndefined js_constructor then
    let message := constructor_not_found_message constructor in
    (JS_EXCEPTION, JS_Throw context (new_js_error "TypeMappingError" message))
  else
    JS_CallConstructor context js_constructor argv.

(** The [while] loop of [java_set_to_js_set] over what is left of the
    iterator. *)
Fixpoint java_set_loop (convert : converter) (java_set : nat)
    (iterator : list jref) (index : nat) (js_array : JSValue)
    (context : JSContext) : result (loop_exit * JSContext) :=
  match iterator with
  | [] => Ok (LoopEnd, context)
  | key :: rest =>
      if IsSameObject (Some java_set) key then
        let context := throw_circular_ref_error context in
        let context := JS_FreeValue context js_array in
        Ok (LoopReturn JS_EXCEPTION, context)
      else
        let* (item, context) := convert context key in
        if JS_IsException item then
          Ok (LoopBreak, context)
        else
          java_set_loop convert java_set rest (S index) js_array
            (JS_SetPropertyUint32 context js_array index item)
  end.

Definition java_set_to_js_set (convert : converter) (env : JNIEnv)
    (context : JSContext) (java_set : nat) : result (JSValue * JSContext) :=
  let iterator := method_set_iterator (env java_set) in
  let '(js_array, context) := JS_NewArray context in
  let* (exit, context) :=
    java_set_loop convert java_set iterator 0 js_array context in
  match exit with
  | LoopReturn v => Ok (v, context)
  | LoopBreak | LoopEnd =>
      let argv := [js_array] in
      let '(result, context) :=
        new_js_object_from_constructor context "Set" argv in
      let context := JS_FreeValue context js_array in
      Ok (result, context)
  end.

(** The [while] loop of [java_map_to_js_map]; it is left only by a
    [return] or at the end of the iteration. *)
Fixpoint java_map_loop (convert : converter) (java_map : nat)
    (iterator : list (jref * jref)) (index : nat) (js_array : JSValue)
    (context : JSContext) : result (loop_exit * JSContext) :=
  match iterator with
  | [] => Ok (LoopEnd, context)
  | (key, value) :: rest =>
      if IsSameObject (Some java_map) key then
        let context := throw_circular_ref_error context in
        let context := JS_FreeValue context js_array in
        Ok (LoopReturn JS_EXCEPTION, context)
      else
        let* (js_key, context) := convert context key in
        if JS_IsException js_key then
          Ok (LoopReturn JS_EXCEPTION, context)
        else if IsSameObject (Some java_map) value then
          let context := throw_circular_ref_error context in
          let context := JS_FreeValue context js_array in
          Ok (LoopReturn JS_EXCEPTION, context)
        else
          let* (js_value, context) := convert context value in
          if JS_IsException js_value then
            Ok (LoopReturn JS_EXCEPTION, context)
          else
            let '(js_entry, context) := JS_NewArray context in
            let context := JS_SetPropertyUint32 context js_entry 0 js_key in
            let context := JS_SetPropertyUint32 context js_entry 1 js_value in
            let context := JS_SetPropertyUint32 context js_array index js_entry in
            java_map_loop convert java_map rest (S index) js_array context
  end.

Definition java_map_to_js_map (convert : converter) (env : JNIEnv)
    (context : JSContext) (java_map : nat) : result (JSValue * JSContext) :=
  let iterator := method_map_entry_set (env java_map) in
  let '(js_array, context) := JS_NewArray context in
  let* (exit, context) :=
    java_map_loop convert java_map iterator 0 js_array context in
  match exit with
  | LoopReturn v => Ok (v, context)
  | LoopBreak | LoopEnd =>
      let argv := [js_array] in
      let '(result, context) :=
        new_js_object_from_constructor context "Map" argv in
      let context := JS_FreeValue context js_array in
      Ok (result, context)
  end.

(** The [for] loop of [java_throwable_to_js_error] over the rendered
    stack-trace lines from index [i] on. *)
Fixpoint stack_trace_loop (lines : list string) (i : nat)
    (stack_trace : JSValue) (context : JSContext) : JSContext :=
  match lines with
  | [] => context
  | line_string :: rest =>
      let line := JS_NewString line_string in
      stack_trace_loop rest (S i) stack_trace
        (JS_SetPropertyUint32 context stack_trace i line)
  end.

Definition java_throwable_to_js_error (env : JNIEnv) (context : JSContext)
    (throwable : nat) : JSValue * JSContext :=
  let '(error, context) := JS_NewError context in
  let cls_name := class_name (env throwable) in
  let js_name := JS_NewString cls_name in
  let context := JS_SetPropertyStr context error "name" js_name in
  let j_message := method_throwable_get_message (env throwable) in
  let context :=
    match j_message with
    | Some message =>
        JS_SetPropertyStr context error "message" (JS_NewString message)
    | None =>
        JS_SetPropertyStr context error "message" (JS_NewString "")
    end in
  let j_stack_trace := method_throwable_get_stack_trace (env throwable) in
  let '(stack_trace, context) := JS_NewArray context in
  let context := stack_trace_loop j_stack_trace 0 stack_trace context in
  let context := JS_SetPropertyStr context error "stack" stack_trace in
  (error, context).

Definition only_string_keys_message : string :=
  "Cannot convert java map to js value: " +:+
  "only string keys are supported.".

(** The [while] loop of [java_map_to_js_object]; it is left only by a
    [return] or at the end of the iteration. *)
Fixpoint java_object_loop (convert : converter) (env : JNIEnv)
    (java_map : nat) (iterator : list (jref * jref)) (js_object : JSValue)
    (context : JSContext) : result (loop_exit * JSContext) :=
  match iterator with
  | [] => Ok (LoopEnd, context)
  | (key, value) :: rest =>
      if IsSameObject (Some java_map) key then
        let context := throw_circular_ref_error context in
        let context := JS_FreeValue context js_object in
        Ok (LoopReturn JS_EXCEPTION, context)
      else if negb (IsInstanceOf env key cls_string) then
        let message := only_string_keys_message in
        let context :=
          JS_Throw context (new_js_error "TypeMappingError" message) in
        Ok (LoopReturn JS_EXCEPTION, context)
      else
        match GetStringUTFChars env key with
        | None => JniFault
        | Some str_key =>
            if IsSameObject (Some java_map) value then
              let context := throw_circular_ref_error context in
              let context := JS_FreeValue context js_object in
              Ok (LoopReturn JS_EXCEPTION, context)
            else
              let js_key := JS_NewAtom str_key in
              let* (js_value, context) := convert context value in
              if JS_IsException js_value then
                Ok (LoopReturn js_value, context)
              else
                java_object_loop convert env java_map rest js_object
                  (JS_SetProperty context js_object js_key js_value)
        end
  end.

Definition java_map_to_js_object (convert : converter) (env : JNIEnv)
    (context : JSContext) (java_map : nat) : result (JSValue * JSContext) :=
  let iterator := method_map_entry_set (env java_map) in
  let '(js_object, context) := JS_NewObject context in
  let* (exit, context) :=
    java_object_loop convert env java_map iterator js_object context in
  match exit with
  | LoopReturn v => Ok (v, context)
  | LoopBreak | LoopEnd => Ok (js_object, context)
  end.

(** The loops over the five kinds of primitive array: one boxed value
    per element, no recursion. *)
Fixpoint primitive_array_loop {A : Type} (box : A -> JSValue)
    (arr : list A) (i : nat) (js_array : JSValue) (context : JSContext)
    : JSContext :=
  match arr with
  | [] => context
  | x :: rest =>
      let js_element := box x in
      primitive_array_loop box rest (S i) js_array
        (JS_SetPropertyUint32 context js_array i js_element)
  end.

Definition primitive_array {A : Type} (box : A -> JSValue) (arr : list A)
    (context : JSContext) : JSValue * JSContext :=
  let '(js_array, context) := JS_NewArray context in
  (js_array, primitive_array_loop box arr 0 js_array context).

Definition GetBooleanArrayElements (o : jobject) : list bool :=
  match o with JBooleanArray l => l | _ => [] end.
Definition GetIntArrayElements (o : jobject) : list Z :=
  match o with JIntArray l => l | _ => [] end.
Definition GetLongArrayElements (o : jobject) : list Z :=
  match o with JLongArray l => l | _ => [] end.
Definition GetFloatArrayElements (o : jobject) : list Z :=
  match o with JFloatArray l => l | _ => [] end.
Definition GetDoubleArrayElements (o : jobject) : list Z :=
  match o with JDoubleArray l => l | _ => [] end.
Definition GetObjectArrayElements (o : jobject) : list jref :=
  match o with JObjectArray _ l => l | _ => [] end.

(** The [for] loop of the object-array branch of [jobject_to_js_value];
    the boolean is [has_exception]. *)
Fixpoint object_array_loop (convert : converter) (value : nat)
    (elements : list jref) (i : nat) (js_array : JSValue)
    (context : JSContext) : result (bool * JSContext) :=
  match elements with
  | [] => Ok (false, context)
  | element :: rest =>
      if IsSameObject (Some value) element then
        let context := JS_FreeValue context js_array in
        let context := throw_circular_ref_error context in
        Ok (true, context)
      else
        let* (js_element, context) := convert context element in
        object_array_loop convert value rest (S i) js_array
          (JS_SetPropertyUint32 context js_array i js_element)
  end.

(** ['[' == cls_name[0]]. *)
Definition starts_with_bracket (cls_name : string) : bool :=
  match cls_name with
  | String c _ => Ascii.eqb ("["%char : Ascii.ascii) c
  | EmptyString => false
  end.

Definition cannot_convert_message (cls_name : string) : string :=
  "Cannot convert java type '" +:+ cls_name +:+ "' to a js value.".

(** The secondary dispatch of [jobject_to_js_value], by class name.
    The source formats the message of the last branch into a buffer of
    100 bytes. *)
Definition convert_by_class_name (convert : converter) (env : JNIEnv)
    (context : JSContext) (value : nat) : result (JSValue * JSContext) :=
  let cls_name := class_name (env value) in
  if String.eqb "kotlin.Unit" cls_name then
    Ok (JS_UNDEFINED, context)
  else if String.eqb "[Z" cls_name then
    Ok (primitive_array (fun b => JS_NewBool (Bool.eqb b true))
          (GetBooleanArrayElements (env value)) context)
  else if String.eqb "[I" cls_name then
    Ok (primitive_array JS_NewInt32 (GetIntArrayElements (env value)) context)
  else if String.eqb "[J" cls_name then
    Ok (primitive_array JS_NewInt64 (GetLongArrayElements (env value)) context)
  else if String.eqb "[F" cls_name then
    Ok (primitive_array (fun f => JS_NewFloat64 (double_of_jfloat f))
          (GetFloatArrayElements (env value)) context)
  else if String.eqb "[D" cls_name then
    Ok (primitive_array (fun d => JS_NewFloat64 (double_of_jdouble d))
          (GetDoubleArrayElements (env value)) context)
  else if starts_with_bracket cls_name then
    let elements := GetObjectArrayElements (env value) in
    let '(js_array, context) := JS_NewArray context in
    let* (has_exception, context) :=
      object_array_loop convert value elements 0 js_array context in
    if has_exception : bool then Ok (JS_EXCEPTION, context)
    else Ok (js_array, context)
  else
    let message := cannot_convert_message cls_name in
    Ok (JS_EXCEPTION,
        JS_Throw context (new_js_error "TypeMappingError" message)).

(** The primary dispatch of [jobject_to_js_value]: the chain of
    [IsInstanceOf] tests on a non-NULL value.  [JS_UNDEFINED] is the
    initial value of [result], kept when no test succeeds. *)
Definition convert_by_instance_of (convert : converter) (env : JNIEnv)
    (context : JSContext) (value : nat) : result (JSValue * JSContext) :=
  if IsInstanceOf env (Some value) cls_boolean then
    let unboxed := method_boolean_boolean_value (env value) in
    if Bool.eqb unboxed true then Ok (JS_TRUE, context)
    else Ok (JS_FALSE, context)
  else if IsInstanceOf env (Some value) cls_integer then
    let unboxed := method_integer_int_value (env value) in
    Ok (JS_NewFloat64 (double_of_jint unboxed), context)
  else if IsInstanceOf env (Some value) cls_long then
    let unboxed := method_integer_int_value (env value) in
    Ok (JS_NewInt64 unboxed, context)
  else if IsInstanceOf env (Some value) cls_float then
    let unboxed := method_float_float_value (env value) in
    Ok (JS_NewFloat64 (double_of_jfloat unboxed), context)
  else if IsInstanceOf env (Some value) cls_double then
    let unboxed := method_double_double_value (env value) in
    Ok (JS_NewFloat64 (double_of_jdouble unboxed), context)
  else if IsInstanceOf env (Some value) cls_string then
    match GetStringUTFChars env (Some value) with
    | Some c_str => Ok (JS_NewString c_str, context)
    | None => JniFault
    end
  else if IsInstanceOf env (Some value) cls_list then
    java_list_to_js_array convert env context value
  else if IsInstanceOf env (Some value) cls_js_object then
    java_map_to_js_object convert env context value
  else if IsInstanceOf env (Some value) cls_map then
    java_map_to_js_map convert env context value
  else if IsInstanceOf env (Some value) cls_set then
    java_set_to_js_set convert env context value
  else if IsInstanceOf env (Some value) cls_throwable then
    Ok (java_throwable_to_js_error env context value)
  else
    Ok (JS_UNDEFINED, context).

(** [jobject_to_js_value], with [stack] the number of nested calls the
    C stack still has room for. *)
Fixpoint jobject_to_js_value (stack : nat) (env : JNIEnv)
    (context : JSContext) (value : jref) : result (JSValue * JSContext) :=
  match stack with
  | O => StackExhausted
  | S stack =>
      match value with
      | None => Ok (JS_NULL, context)
      | Some value =>
          let convert := jobject_to_js_value stack env in
          let* (result, context) :=
            convert_by_instance_of convert env context value in
          if negb (JS_IsUndefined result) then Ok (result, context)
          else convert_by_class_name convert env context value
      end
  end.

(** ** The vocabulary of the specification *)

(** The two error kinds of section 7, as the converter raises them. *)
Definition CircularReferenceError : JSError :=
  new_simple_js_error circular_ref_message.

Definition TypeMappingError (message : string) : JSError :=
  new_js_error "TypeMappingError" message.

(** [mentions s sub]: the text [sub] occurs in [s]. *)
Fixpoint mentions (s sub : string) : bool :=
  if String.prefix sub s then true
  else
    match s with
    | EmptyString => false
    | String _ s' => mentions s' sub
    end.

(** The precedence order of section 4.1, and "first match wins". *)
Definition dispatch_order : list jclass :=
  [cls_boolean; cls_integer; cls_long; cls_float; cls_double; cls_string;
   cls_list; cls_js_object; cls_map; cls_set; cls_throwable].

Definition first_match (env : JNIEnv) (value : nat) : option jclass :=
  List.find (IsInstanceOf env (Some value)) dispatch_order.

(** The branch of the primary dispatch that handles each class. *)
Definition branch_of (c : jclass) (convert : converter) (env : JNIEnv)
    (context : JSContext) (value : nat) : result (JSValue * JSContext) :=
  match c with
  | cls_boolean =>
      if Bool.eqb (method_boolean_boolean_value (env value)) true
      then Ok (JS_TRUE, context) else Ok (JS_FALSE, context)
  | cls_integer =>
      Ok (JS_NewFloat64 (double_of_jint (method_integer_int_value (env value))),
          context)
  | cls_long => Ok (JS_NewInt64 (method_integer_int_value (env value)), context)
  | cls_float =>
      Ok (JS_NewFloat64 (double_of_jfloat (method_float_float_value (env value))),
          context)
  | cls_double =>
      Ok (JS_NewFloat64 (double_of_jdouble (method_double_double_value (env value))),
          context)
  | cls_string =>
      match GetStringUTFChars env (Some value) with
      | Some c_str => Ok (JS_NewString c_str, context)
      | None => JniFault
      end
  | cls_list => java_list_to_js_array convert env context value
  | cls_js_object => java_map_to_js_object convert env context value
  | cls_map => java_map_to_js_map convert env context value
  | cls_set => java_set_to_js_set convert env context value
  | cls_throwable => Ok (java_throwable_to_js_error env context value)
  end.

(** A conversion raises [err]: it returns the sentinel and leaves [err]
    pending in the context. *)
Definition raises (r : result (JSValue * JSContext)) (err : JSError) : Prop :=
  exists context', r = Ok (JS_EXCEPTION, context') /\ exception context' = Some err.

(** A converter leaves the global object of the runtime as it was. *)
Definition preserves_globals (convert : converter) : Prop :=
  forall context value v context',
    convert context value = Ok (v, context') ->
    globals context' = globals context.

(** ** Sample inputs *)

Module Samples.

Definition java_Object : jobject :=
  JInstance (mk_jinstance "java.lang.Object" None None None None).

Definition new_ArrayList (elements : list jref) : jobject :=
  JInstance (mk_jinstance "java.util.ArrayList" (Some elements) None None None).

Definition new_LinkedHashSet (members : list jref) : jobject :=
  JInstance (mk_jinstance "java.util.LinkedHashSet" None None (Some members) None).

Definition new_LinkedHashMap (entries : list (jref * jref)) : jobject :=
  JInstance (mk_jinstance "java.util.LinkedHashMap" None (Some entries) None None).

Definition new_RuntimeException (message : option string)
    (frames : list string) : jobject :=
  JInstance (mk_jinstance "java.lang.RuntimeException" None None None
               (Some (mk_jthrowable message frames))).

(** A runtime whose global object has the Set and Map constructors, and
    one whose global object has neither. *)
Definition runtime : JSContext :=
  mk_JSContext ∅ 0 None
    (<["Set" := JS_Function "Set"]> (<["Map" := JS_Function "Map"]> ∅)).

Definition bare_runtime : JSContext := mk_JSContext ∅ 0 None ∅.

(** The host store of the samples.  Object 0 is a plain
    [java.lang.Object], for which there is no conversion rule. *)
Definition store : JNIEnv := fun a =>
  match a with
  | 1 => JString "k"
  | 2 => JInteger 7
  | 3 => JLong 4294967296
  | 4 => new_LinkedHashSet [Some 0]
  | 5 => new_LinkedHashMap [(Some 1, Some 0)]
  | 6 => new_LinkedHashMap [(Some 0, Some 1)]
  | 7 => JObjectArray "[Ljava.lang.Object;" [Some 0; Some 1]
  | 8 => JJsObject [(Some 1, Some 0); (Some 2, Some 1)]
  | 9 => JJsObject [(Some 2, Some 1)]
  | 10 => new_ArrayList [Some 0; Some 10]
  | 11 => new_ArrayList [Some 2; Some 11]
  | 12 => JJsObject [(Some 2, Some 1); (Some 12, Some 1)]
  | 13 => JJsObject [(Some 1, Some 2); (Some 13, Some 1)]
  | 14 => new_RuntimeException None ["a.B.c(B.java:3)"; "a.D.e(D.java:9)"]
  | 15 => new_LinkedHashSet [Some 1; Some 2]
  | 16 => new_LinkedHashMap [(Some 1, Some 2)]
  | 17 => JJsObject [(Some 1, Some 2); (Some 2, Some 1)]
  | _ => java_Object
  end.

End Samples.

(** ** Vocabulary of the further properties *)

(** What the primary dispatch yields for NULL, a boxed primitive or a
    string: the values that are converted without touching the runtime
    context. *)
Definition scalar_value (env : JNIEnv) (value : jref) : option JSValue :=
  match value with
  | None => Some JS_NULL
  | Some a =>
      match env a with
      | JBoolean b => Some (JS_Bool b)
      | JInteger n => Some (JS_Float64 (double_of_jint (to_jint n)))
      | JLong n => Some (JS_Int64 (to_jint n))
      | JFloat f => Some (JS_Float64 (double_of_jfloat f))
      | JDouble d => Some (JS_Float64 (double_of_jdouble d))
      | JString s => Some (JS_String s)
      | _ => None
      end
  end.

(** The context [c'] extends [c] above identity [n]: no identity is
    handed out twice and the objects below [n] are as they were. *)
Definition extends_above (n : nat) (c c' : JSContext) : Prop :=
  next_id c <= next_id c' /\
  forall id, id < n -> heap c' !! id = heap c !! id.

(** A converter only works on objects it allocates itself, and an
    object it returns is one of those. *)
Definition keeps_frame (convert : converter) : Prop :=
  forall context value v context',
    convert context value = Ok (v, context') ->
    extends_above (next_id context) context context' /\
    forall id, v = JS_Obj id -> next_id context <= id < next_id context'.

(** A converter never clears a pending exception, and returns the
    sentinel only with an exception pending. *)
Definition signals_soundly (convert : converter) : Prop :=
  forall context value v context',
    convert context value = Ok (v, context') ->
    (is_Some (exception context) -> is_Some (exception context')) /\
    (v = JS_EXCEPTION -> is_Some (exception context')).

Module MoreSamples.

Definition store : JNIEnv := fun a =>
  match a with
  | 0 => JString "a"
  | 1 => JString "b"
  | 2 => JInteger 1
  | 3 => JBoolean true
  | 4 => JLong 5
  | 5 => Samples.new_ArrayList [Some 3; None; Some 0]
  | 6 => Samples.new_LinkedHashSet [Some 0; Some 1]
  | 7 => Samples.new_LinkedHashMap [(Some 0, Some 2); (Some 1, Some 3)]
  | 8 => JJsObject [(Some 0, Some 2); (Some 1, Some 3)]
  | 9 => JIntArray [1; 2; 3]%Z
  | 10 => JLongArray [4294967296; -1]%Z
  | 11 => JBooleanArray [true; false]
  | 12 => JFloatArray [1065353216]%Z
  | 13 => JDoubleArray [4607182418800017408]%Z
  | 14 => Samples.new_LinkedHashSet [Some 0; Some 14]
  | 15 => Samples.new_LinkedHashMap [(Some 0, Some 2); (Some 15, Some 3)]
  | 16 => Samples.new_LinkedHashMap [(Some 0, Some 2); (Some 1, Some 16)]
  | 17 => JJsObject [(Some 0, Some 2); (Some 1, Some 17)]
  | 18 => JObjectArray "[Ljava.lang.Object;" [Some 20; Some 18]
  | 19 => Samples.new_ArrayList [Some 5; Some 0]
  | 21 => Samples.new_ArrayList [Some 22]
  | 22 => Samples.new_ArrayList [Some 21]
  | _ => Samples.java_Object
  end.

(** A runtime that already holds an object and has an exception
    pending. *)
Definition busy_runtime : JSContext :=
  mk_JSContext (<[0 := JSArray [JS_NULL]]> ∅) 1
    (Some (new_simple_js_error "earlier"))
    (<["Set" := JS_Function "Set"]> (<["Map" := JS_Function "Map"]> ∅)).

End MoreSamples.

(** The boxed values of a primitive array, one per element, boxed the
    way the branch for its element kind does. *)
Definition primitive_array_items (o : jobject) : option (list JSValue) :=
  match o with
  | JBooleanArray l => Some (JS_Bool <$> l)
  | JIntArray l => Some (JS_Int32 <$> l)
  | JLongArray l => Some (JS_Int64 <$> l)
  | JFloatArray l => Some ((fun f => JS_Float64 (double_of_jfloat f)) <$> l)
  | JDoubleArray l => Some ((fun d => JS_Float64 (double_of_jdouble d)) <$> l)
  | _ => None
  end.

(** The class names for which the secondary dispatch takes the
    object-array branch: they start with '[' and are none of the five
    primitive-array names. *)
Definition object_array_class (name : string) : bool :=
  starts_with_bracket name &&
  negb (String.eqb "[Z" name) && negb (String.eqb "[I" name) &&
  negb (String.eqb "[J" name) && negb (String.eqb "[F" name) &&
  negb (String.eqb "[D" name).

(** The properties of a destination object after [JS_SetProperty] has
    been called for each pair in turn. *)
Definition set_properties (props : gmap string JSValue)
    (pairs : list (string * JSValue)) : gmap string JSValue :=
  foldl (fun m kv => <[kv.1 := kv.2]> m) props pairs.

(** An entry of a string-keyed object with a string key and a scalar
    value, and the property it becomes. *)
Definition scalar_entry (env : JNIEnv) (entry : jref * jref)
    (pair : string * JSValue) : Prop :=
  GetStringUTFChars env entry.1 = Some pair.1 /\
  scalar_value env entry.2 = Some pair.2.

(** An entry of a host map whose key and value are both scalars, and
    the pair of values it becomes. *)
Definition scalar_pair (env : JNIEnv) (entry : jref * jref)
    (pair : JSValue * JSValue) : Prop :=
  scalar_value env entry.1 = Some pair.1 /\
  scalar_value env entry.2 = Some pair.2.

(** ** Properties of the runtime model *)

Section runtime_facts.

Implicit Types (ctx : JSContext) (items : list JSValue) (v : JSValue).

Lemma set_index_end items v : set_index items (length items) v = items ++ [v].
Proof.
  unfold set_index. rewrite decide_False by lia.
  by rewrite Nat.sub_diag.
Qed.

Lemma set_index_append ctx id items v :
  heap ctx !! id = Some (JSArray items) ->
  JS_SetPropertyUint32 ctx (JS_Obj id) (length items) v =
    with_heap ctx (<[id := JSArray (items ++ [v])]> (heap ctx)).
Proof.
  intros H. unfold JS_SetPropertyUint32. rewrite H.
  by rewrite set_index_end.
Qed.

(** Filling an array from its current end appends the boxed elements in
    order and touches nothing else. *)
Lemma primitive_array_loop_spec {A : Type} (box : A -> JSValue) (arr : list A) :
  forall ctx id items,
    heap ctx !! id = Some (JSArray items) ->
    let ctx' := primitive_array_loop box arr (length items) (JS_Obj id) ctx in
    heap ctx' = <[id := JSArray (items ++ (box <$> arr))]> (heap ctx) /\
    next_id ctx' = next_id ctx /\
    exception ctx' = exception ctx /\
    globals ctx' = globals ctx.
Proof.
  induction arr as [|x arr IH]; intros ctx id items H;
    cbn [primitive_array_loop fmap list_fmap].
  - rewrite app_nil_r. by rewrite insert_id.
  - rewrite (set_index_append _ _ _ _ H).
    specialize (IH (with_heap ctx (<[id:=JSArray (items ++ [box x])]> (heap ctx)))
                   id (items ++ [box x])).
    rewrite length_app in IH. simpl in IH.
    replace (length items + 1)%nat with (S (length items)) in IH by lia.
    destruct IH as (Hh & Hn & He & Hg); [apply lookup_insert_eq|].
    rewrite Hh, Hn, He, Hg. simpl.
    rewrite insert_insert_eq, <- app_assoc. done.
Qed.

Lemma stack_trace_loop_primitive lines :
  forall i a ctx,
    stack_trace_loop lines i a ctx = primitive_array_loop JS_NewString lines i a ctx.
Proof. induction lines as [|l lines IH]; intros; simpl; [done | apply IH]. Qed.

Lemma set_property_error ctx id props p v :
  heap ctx !! id = Some (JSErrorObject props) ->
  JS_SetPropertyStr ctx (JS_Obj id) p v =
    with_heap ctx (<[id := JSErrorObject (<[p := v]> props)]> (heap ctx)).
Proof. intros H. unfold JS_SetPropertyStr. by rewrite H. Qed.

End runtime_facts.

(** C7: the conversion of a host exception object always succeeds: it
    returns an error object, never the sentinel, and raises nothing.
    The error object has [name] equal to the runtime class name of the
    exception, [message] equal to its message, or to the empty string
    when the exception has none, and [stack] equal to an array of
    strings, one per stack-trace frame, in the original order. *)
Theorem throwable_to_error :
  forall (env : JNIEnv) (context : JSContext) (throwable : nat)
         (i : jinstance) (t : jthrowable),
    env throwable = JInstance i ->
    instance_throwable i = Some t ->
    exists (error stack_trace : nat) (context' : JSContext)
           (props : gmap string JSValue),
      java_throwable_to_js_error env context throwable = (JS_Obj error, context') /\
      heap context' !! error = Some (JSErrorObject props) /\
      props !! "name" = Some (JS_String (instance_class_name i)) /\
      props !! "message" = Some (JS_String (default "" (throwable_message t))) /\
      props !! "stack" = Some (JS_Obj stack_trace) /\
      heap context' !! stack_trace =
        Some (JSArray (JS_String <$> throwable_stack_trace t)) /\
      exception context' = exception context.
Proof.
  intros env context throwable i t Henv Ht.
  unfold java_throwable_to_js_error, JS_NewError, JS_NewArray, alloc.
  rewrite stack_trace_loop_primitive.
  unfold method_throwable_get_message, method_throwable_get_stack_trace,
    class_name.
  rewrite Henv, Ht. cbn [mbind option_bind fmap option_fmap option_map default].
  set (e := next_id context).
  set (name := JS_NewString (instance_class_name i)).
  set (msg := JS_NewString (default "" (throwable_message t))).
  set (c1 := mk_JSContext (<[e := JSErrorObject ∅]> (heap context)) (S e)
               (exception context) (globals context)).
  assert (H1 : heap c1 !! e = Some (JSErrorObject ∅)) by apply lookup_insert_eq.
  rewrite (set_property_error c1 e ∅ "name" name H1).
  set (c2 := with_heap c1 _).
  assert (H2 : heap c2 !! e = Some (JSErrorObject (<["name" := name]> ∅)))
    by apply lookup_insert_eq.
  assert (Hm : match throwable_message t with
               | Some message => JS_SetPropertyStr c2 (JS_Obj e) "message" (JS_NewString message)
               | None => JS_SetPropertyStr c2 (JS_Obj e) "message" (JS_NewString "")
               end = JS_SetPropertyStr c2 (JS_Obj e) "message" msg)
    by (subst msg; destruct (throwable_message t); reflexivity).
  rewrite Hm. clear Hm.
  rewrite (set_property_error c2 e _ "message" msg H2).
  set (c3 := with_heap c2 _).
  change (next_id c3) with (S e).
  set (c4 := mk_JSContext (<[S e := JSArray []]> (heap c3)) (S (S e))
               (exception c3) (globals c3)).
  assert (H4 : heap c4 !! S e = Some (JSArray [])) by apply lookup_insert_eq.
  destruct (primitive_array_loop_spec JS_NewString (throwable_stack_trace t)
              c4 (S e) [] H4) as (Hh & Hn & He & Hg).
  cbn [length app] in Hh, Hn, He, Hg.
  set (c5 := primitive_array_loop _ _ _ _ _) in *.
  assert (H5 : heap c5 !! e =
               Some (JSErrorObject (<["message" := msg]> (<["name" := name]> ∅)))).
  { rewrite Hh. rewrite lookup_insert_ne by lia.
    subst c4. cbn [heap]. rewrite lookup_insert_ne by lia.
    apply lookup_insert_eq. }
  rewrite (set_property_error c5 e _ "stack" (JS_Obj (S e)) H5).
  eexists e, (S e), _, _.
  split; [reflexivity|].
  cbn [heap with_heap exception].
  split; [apply lookup_insert_eq|].
  split; [by rewrite lookup_insert_ne, lookup_insert_ne, lookup_insert_eq|].
  split; [by rewrite lookup_insert_ne, lookup_insert_eq|].
  split; [apply lookup_insert_eq|].
  split; [|exact He].
  rewrite lookup_insert_ne by lia. rewrite Hh. by rewrite lookup_insert_eq.
Qed.

Lemma throwable_to_error_witness :
  exists (error stack_trace : nat) (context' : JSContext)
         (props : gmap string JSValue),
    java_throwable_to_js_error Samples.store Samples.runtime 14
      = (JS_Obj error, context') /\
    heap context' !! error = Some (JSErrorObject props) /\
    props !! "name" = Some (JS_String "java.lang.RuntimeException") /\
    props !! "message" = Some (JS_String "") /\
    props !! "stack" = Some (JS_Obj stack_trace) /\
    heap context' !! stack_trace =
      Some (JSArray [JS_String "a.B.c(B.java:3)"; JS_String "a.D.e(D.java:9)"]) /\
    exception context' = None.
Proof.
  apply (throwable_to_error Samples.store Samples.runtime 14 _ _ eq_refl eq_refl).
Defined.

(** ** Control flow of the loops *)

Lemma is_exception_eq v : JS_IsException v = true -> v = JS_EXCEPTION.
Proof. by destruct v. Qed.

(** The string-keyed-object loop returns nothing but the sentinel and is
    never left by a [break]. *)
Lemma java_object_loop_exit convert env java_map iterator js_object :
  forall context exit context',
    java_object_loop convert env java_map iterator js_object context
      = Ok (exit, context') ->
    exit = LoopReturn JS_EXCEPTION \/ exit = LoopEnd.
Proof.
  induction iterator as [|[key value] rest IH]; intros context exit context';
    cbn [java_object_loop].
  - intros [= <- _]. by right.
  - destruct (IsSameObject _ key); [intros [= <- _]; by left|].
    destruct (negb _); [intros [= <- _]; by left|].
    destruct (GetStringUTFChars env key); [|done].
    destruct (IsSameObject _ value); [intros [= <- _]; by left|].
    destruct (convert context value) as [[js_value c]| |]; cbn [bind]; [|done..].
    destruct (JS_IsException js_value) eqn:E.
    + intros [= <- _]. left. by rewrite (is_exception_eq _ E).
    + apply IH.
Qed.

Lemma java_map_to_js_object_defined convert env context java_map v context' :
  java_map_to_js_object convert env context java_map = Ok (v, context') ->
  JS_IsUndefined v = false.
Proof.
  unfold java_map_to_js_object, JS_NewObject, alloc.
  destruct (java_object_loop _ _ _ _ _ _) as [[exit c]| |] eqn:E;
    cbn [bind]; [|done..].
  destruct (java_object_loop_exit _ _ _ _ _ _ _ _ E) as [-> | ->];
    by intros [= <- _].
Qed.

(** The chain of type tests is "first match wins" over the precedence
    order. *)
Lemma convert_by_instance_of_first_match convert env context value :
  convert_by_instance_of convert env context value =
    match first_match env value with
    | Some c => branch_of c convert env context value
    | None => Ok (JS_UNDEFINED, context)
    end.
Proof.
  unfold convert_by_instance_of, first_match, dispatch_order.
  cbn [List.find].
  repeat (destruct (IsInstanceOf env (Some value) _); [reflexivity|]).
  reflexivity.
Qed.

(** ** Routing of the dispatcher *)

Lemma java_list_to_js_array_defined convert env context java_list v context' :
  java_list_to_js_array convert env context java_list = Ok (v, context') ->
  JS_IsUndefined v = false.
Proof.
  unfold java_list_to_js_array, JS_NewArray, alloc.
  destruct (java_list_loop _ _ _ _ _ _) as [[b c]| |]; cbn [bind]; [|done..].
  by destruct b; intros [= <- _].
Qed.

Lemma route_list stack env context value inst elements :
  env value = JInstance inst ->
  instance_list inst = Some elements ->
  jobject_to_js_value (S stack) env context (Some value) =
    java_list_to_js_array (jobject_to_js_value stack env) env context value.
Proof.
  intros Henv Hlist. cbn [jobject_to_js_value].
  rewrite convert_by_instance_of_first_match.
  unfold first_match, dispatch_order. cbn [List.find IsInstanceOf].
  rewrite Henv. cbn [instance_of]. rewrite Hlist.
  rewrite bool_decide_eq_true_2 by eauto. cbn [branch_of].
  destruct (java_list_to_js_array _ _ _ _) as [[v c]| |] eqn:E; cbn [bind];
    [|done..].
  by rewrite (java_list_to_js_array_defined _ _ _ _ _ _ E).
Qed.

Lemma route_js_object stack env context value :
  first_match env value = Some cls_js_object ->
  jobject_to_js_value (S stack) env context (Some value) =
    java_map_to_js_object (jobject_to_js_value stack env) env context value.
Proof.
  intros Hfirst. cbn [jobject_to_js_value].
  rewrite convert_by_instance_of_first_match, Hfirst. cbn [branch_of].
  destruct (java_map_to_js_object _ _ _ _) as [[v c]| |] eqn:E; cbn [bind];
    [|done..].
  by rewrite (java_map_to_js_object_defined _ _ _ _ _ _ E).
Qed.

Lemma first_match_js_object env value entries :
  env value = JJsObject entries ->
  first_match env value = Some cls_js_object.
Proof.
  intros Henv. unfold first_match, dispatch_order.
  cbn [List.find IsInstanceOf]. by rewrite Henv.
Qed.

(** C8: a host value that is both a string-keyed object (JsObject) and
    a generic map is routed to the string-keyed-object converter, whose
    result is the result of the conversion (the sentinel, or the plain
    object that converter allocates); it is not routed to the Map
    converter, because in the precedence order Boolean, Int32, Int64,
    Float32, Float64, String, List, StringKeyedObject, OrderedMap, Set,
    Throwable the first matching test wins and StringKeyedObject comes
    before OrderedMap. *)
Theorem string_keyed_object_before_map :
  forall (stack : nat) (env : JNIEnv) (context : JSContext) (value : nat),
    IsInstanceOf env (Some value) cls_js_object = true ->
    IsInstanceOf env (Some value) cls_map = true ->
    convert_by_instance_of (jobject_to_js_value stack env) env context value =
      match first_match env value with
      | Some c => branch_of c (jobject_to_js_value stack env) env context value
      | None => Ok (JS_UNDEFINED, context)
      end /\
    first_match env value = Some cls_js_object /\
    jobject_to_js_value (S stack) env context (Some value) =
      java_map_to_js_object (jobject_to_js_value stack env) env context value /\
    (forall v context',
        jobject_to_js_value (S stack) env context (Some value) = Ok (v, context') ->
        v = JS_EXCEPTION \/ v = (JS_NewObject context).1).
Proof.
  intros stack env context value Hobj Hmap.
  assert (Hfirst : first_match env value = Some cls_js_object).
  { unfold first_match, dispatch_order. cbn [List.find IsInstanceOf] in *.
    destruct (env value); cbn in Hobj |- *; done. }
  split; [apply convert_by_instance_of_first_match|].
  split; [exact Hfirst|].
  split; [by apply route_js_object|].
  intros v context'. rewrite (route_js_object _ _ _ _ Hfirst).
  unfold java_map_to_js_object.
  destruct (JS_NewObject context) as [js_object context0]. cbn [fst].
  destruct (java_object_loop _ _ _ _ _ _) as [[exit c]| |] eqn:E; cbn [bind];
    [|done..].
  destruct (java_object_loop_exit _ _ _ _ _ _ _ _ E) as [-> | ->];
    intros [= <- _]; auto.
Qed.

Lemma string_keyed_object_before_map_witness :
  exists entries,
    Samples.store 9 = JJsObject entries /\
    jobject_to_js_value 2 Samples.store Samples.runtime (Some 9) =
      java_map_to_js_object (jobject_to_js_value 1 Samples.store)
        Samples.store Samples.runtime 9.
Proof.
  eexists. split; [reflexivity|].
  apply (string_keyed_object_before_map 1 Samples.store Samples.runtime 9
           eq_refl eq_refl).
Defined.

(** ** The global object is left alone *)

Section globals.

Implicit Types (ctx : JSContext) (v : JSValue).

Lemma globals_set_index ctx a i v :
  globals (JS_SetPropertyUint32 ctx a i v) = globals ctx.
Proof.
  unfold JS_SetPropertyUint32.
  destruct a; try done. by destruct (heap ctx !! id) as [[]|].
Qed.

Lemma globals_set_property ctx a p v :
  globals (JS_SetPropertyStr ctx a p v) = globals ctx.
Proof.
  unfold JS_SetPropertyStr.
  destruct a; try done. by destruct (heap ctx !! id) as [[]|].
Qed.

Lemma globals_free ctx v : globals (JS_FreeValue ctx v) = globals ctx.
Proof. by destruct v. Qed.

Lemma globals_constructor ctx name argv :
  globals (new_js_object_from_constructor ctx name argv).2 = globals ctx.
Proof.
  unfold new_js_object_from_constructor.
  by destruct (JS_IsUndefined _).
Qed.

Lemma globals_primitive_array_loop {A} (box : A -> JSValue) arr :
  forall i a ctx,
    globals (primitive_array_loop box arr i a ctx) = globals ctx.
Proof.
  induction arr as [|x arr IH]; intros; cbn [primitive_array_loop]; [done|].
  by rewrite IH, globals_set_index.
Qed.

Lemma globals_throwable env ctx throwable :
  globals (java_throwable_to_js_error env ctx throwable).2 = globals ctx.
Proof.
  unfold java_throwable_to_js_error, JS_NewError, JS_NewArray, alloc.
  cbn [snd]. rewrite globals_set_property, stack_trace_loop_primitive.
  rewrite globals_primitive_array_loop. cbn [globals].
  destruct (method_throwable_get_message _);
    by rewrite !globals_set_property.
Qed.

Variable convert : converter.
Hypothesis convert_globals : preserves_globals convert.

Local Tactic Notation "step_convert" constr(c) constr(x) "as" ident(v) ident(c') :=
  let E := fresh "E" in
  destruct (convert c x) as [[v c']| |] eqn:E; cbn [bind]; [|done..];
  apply convert_globals in E.

Lemma globals_java_list_loop java_list elements :
  forall i a ctx b ctx',
    java_list_loop convert java_list elements i a ctx = Ok (b, ctx') ->
    globals ctx' = globals ctx.
Proof.
  induction elements as [|element rest IH]; intros i a ctx b ctx';
    cbn [java_list_loop].
  - by intros [= _ <-].
  - destruct (IsSameObject _ _); [by intros [= _ <-]|].
    step_convert ctx element as js_element ctx1.
    destruct (negb _).
    + intros H. apply IH in H. by rewrite H, globals_set_index.
    + by intros [= _ <-].
Qed.

Lemma globals_java_set_loop java_set iterator :
  forall index a ctx exit ctx',
    java_set_loop convert java_set iterator index a ctx = Ok (exit, ctx') ->
    globals ctx' = globals ctx.
Proof.
  induction iterator as [|key rest IH]; intros index a ctx exit ctx';
    cbn [java_set_loop].
  - by intros [= _ <-].
  - destruct (IsSameObject _ _);
      [intros [= _ <-]; by rewrite globals_free|].
    step_convert ctx key as item ctx1.
    destruct (JS_IsException _); [by intros [= _ <-]|].
    intros H. apply IH in H. by rewrite H, globals_set_index.
Qed.

Lemma globals_java_map_loop java_map iterator :
  forall index a ctx exit ctx',
    java_map_loop convert java_map iterator index a ctx = Ok (exit, ctx') ->
    globals ctx' = globals ctx.
Proof.
  induction iterator as [|[key value] rest IH]; intros index a ctx exit ctx';
    cbn [java_map_loop].
  - by intros [= _ <-].
  - destruct (IsSameObject _ key);
      [intros [= _ <-]; by rewrite globals_free|].
    step_convert ctx key as js_key ctx1.
    destruct (JS_IsException _); [by intros [= _ <-]|].
    destruct (IsSameObject _ value);
      [intros [= _ <-]; by rewrite globals_free|].
    step_convert ctx1 value as js_value ctx2.
    destruct (JS_IsException _); [intros [= _ <-]; congruence|].
    unfold JS_NewArray, alloc. intros H. apply IH in H.
    rewrite H, !globals_set_index. cbn [globals]. congruence.
Qed.

Lemma globals_java_object_loop env java_map iterator :
  forall a ctx exit ctx',
    java_object_loop convert env java_map iterator a ctx = Ok (exit, ctx') ->
    globals ctx' = globals ctx.
Proof.
  induction iterator as [|[key value] rest IH]; intros a ctx exit ctx';
    cbn [java_object_loop].
  - by intros [= _ <-].
  - destruct (IsSameObject _ key);
      [intros [= _ <-]; by rewrite globals_free|].
    destruct (negb _); [by intros [= _ <-]|].
    destruct (GetStringUTFChars env key); [|done].
    destruct (IsSameObject _ value);
      [intros [= _ <-]; by rewrite globals_free|].
    step_convert ctx value as js_value ctx1.
    destruct (JS_IsException _); [by intros [= _ <-]|].
    intros H. apply IH in H.
    unfold JS_SetProperty in H. by rewrite H, globals_set_property.
Qed.

Lemma globals_object_array_loop value elements :
  forall i a ctx b ctx',
    object_array_loop convert value elements i a ctx = Ok (b, ctx') ->
    globals ctx' = globals ctx.
Proof.
  induction elements as [|element rest IH]; intros i a ctx b ctx';
    cbn [object_array_loop].
  - by intros [= _ <-].
  - destruct (IsSameObject _ _);
      [intros [= _ <-]; by rewrite <- (globals_free ctx a)|].
    step_convert ctx element as js_element ctx1.
    intros H. apply IH in H. by rewrite H, globals_set_index.
Qed.

Lemma globals_convert_by_instance_of env value ctx v ctx' :
  convert_by_instance_of convert env ctx value = Ok (v, ctx') ->
  globals ctx' = globals ctx.
Proof.
  rewrite convert_by_instance_of_first_match.
  destruct (first_match env value) as [[]|]; cbn [branch_of];
    try (by intros [= _ <-]).
  - destruct (Bool.eqb _ _); by intros [= _ <-].
  - destruct (GetStringUTFChars _ _); [by intros [= _ <-]|done].
  - unfold java_list_to_js_array, JS_NewArray, alloc.
    destruct (java_list_loop _ _ _ _ _ _) as [[b c]| |] eqn:E; cbn [bind];
      [|done..].
    apply globals_java_list_loop in E.
    destruct b; intros [= _ <-]; by rewrite ?globals_free.
  - unfold java_map_to_js_object, JS_NewObject, alloc.
    destruct (java_object_loop _ _ _ _ _ _) as [[exit c]| |] eqn:E; cbn [bind];
      [|done..].
    apply globals_java_object_loop in E.
    by destruct exit; intros [= _ <-].
  - unfold java_map_to_js_map, JS_NewArray, alloc.
    destruct (java_map_loop _ _ _ _ _ _) as [[exit c]| |] eqn:E; cbn [bind];
      [|done..].
    apply globals_java_map_loop in E.
    destruct exit; [by intros [= _ <-]|..];
      (destruct (new_js_object_from_constructor _ _ _) as [r c'] eqn:E';
       intros [= _ <-]; rewrite ?globals_free; cbn [globals with_heap];
       change c' with (r, c').2; by rewrite <- E', globals_constructor).
  - unfold java_set_to_js_set, JS_NewArray, alloc.
    destruct (java_set_loop _ _ _ _ _ _) as [[exit c]| |] eqn:E; cbn [bind];
      [|done..].
    apply globals_java_set_loop in E.
    destruct exit; [by intros [= _ <-]|..];
      (destruct (new_js_object_from_constructor _ _ _) as [r c'] eqn:E';
       intros [= _ <-]; rewrite ?globals_free; cbn [globals with_heap];
       change c' with (r, c').2; by rewrite <- E', globals_constructor).
  - destruct (java_throwable_to_js_error _ _ _) as [r c'] eqn:E.
    intros [= _ <-]. change c' with (r, c').2.
    by rewrite <- E, globals_throwable.
Qed.

Lemma globals_convert_by_class_name env value ctx v ctx' :
  convert_by_class_name convert env ctx value = Ok (v, ctx') ->
  globals ctx' = globals ctx.
Proof.
  unfold convert_by_class_name, primitive_array, JS_NewArray, alloc.
  repeat (destruct (String.eqb _ _);
    [intros [= _ <-]; by rewrite ?globals_primitive_array_loop|]).
  destruct (starts_with_bracket _); [|by intros [= _ <-]].
  destruct (object_array_loop _ _ _ _ _ _) as [[b c]| |] eqn:E; cbn [bind];
    [|done..].
  apply globals_object_array_loop in E.
  by destruct b; intros [= _ <-].
Qed.

End globals.

Lemma globals_jobject_to_js_value env stack :
  preserves_globals (jobject_to_js_value stack env).
Proof.
  induction stack as [|stack IH]; intros context value v context';
    cbn [jobject_to_js_value]; [done|].
  destruct value as [value|]; [|by intros [= _ <-]].
  destruct (convert_by_instance_of _ _ _ _) as [[r c]| |] eqn:E; cbn [bind];
    [|done..].
  apply (globals_convert_by_instance_of _ IH) in E.
  destruct (negb _); [by intros [= _ <-]|].
  intros H. apply (globals_convert_by_class_name _ IH) in H. congruence.
Qed.

(** C9: when every member of a host Set (every entry of a host Map)
    converts successfully, so that the loop runs to the end of the
    iteration, and the global object of the runtime has no property
    "Set" (respectively "Map"), the conversion raises a TypeMappingError
    with message "JS constructor 'Set' not found." (respectively
    "JS constructor 'Map' not found.") and returns the sentinel. *)
Theorem missing_constructor_raises :
  forall (stack : nat) (env : JNIEnv) (context : JSContext) (value : nat),
    (forall context1,
        globals context !! "Set" = None ->
        java_set_loop (jobject_to_js_value stack env) value
          (method_set_iterator (env value)) 0
          (JS_NewArray context).1 (JS_NewArray context).2
          = Ok (LoopEnd, context1) ->
        raises
          (java_set_to_js_set (jobject_to_js_value stack env) env context value)
          (TypeMappingError "JS constructor 'Set' not found.")) /\
    (forall context1,
        globals context !! "Map" = None ->
        java_map_loop (jobject_to_js_value stack env) value
          (method_map_entry_set (env value)) 0
          (JS_NewArray context).1 (JS_NewArray context).2
          = Ok (LoopEnd, context1) ->
        raises
          (java_map_to_js_map (jobject_to_js_value stack env) env context value)
          (TypeMappingError "JS constructor 'Map' not found.")).
Proof.
  intros stack env context value. split; intros context1 Hglobal Hloop.
  - unfold java_set_to_js_set.
    destruct (JS_NewArray context) as [js_array context0] eqn:Hnew.
    cbn [fst snd] in Hloop. rewrite Hloop. cbn [bind].
    apply globals_java_set_loop in Hloop;
      [|apply globals_jobject_to_js_value].
    assert (Hundef : JS_GetPropertyStr_global context1 "Set" = JS_UNDEFINED).
    { unfold JS_GetPropertyStr_global. rewrite Hloop.
      injection Hnew as _ <-. cbn [globals]. by rewrite Hglobal. }
    unfold new_js_object_from_constructor. rewrite Hundef. cbn [JS_IsUndefined].
    eexists. split; [reflexivity|]. by destruct js_array.
  - unfold java_map_to_js_map.
    destruct (JS_NewArray context) as [js_array context0] eqn:Hnew.
    cbn [fst snd] in Hloop. rewrite Hloop. cbn [bind].
    apply globals_java_map_loop in Hloop;
      [|apply globals_jobject_to_js_value].
    assert (Hundef : JS_GetPropertyStr_global context1 "Map" = JS_UNDEFINED).
    { unfold JS_GetPropertyStr_global. rewrite Hloop.
      injection Hnew as _ <-. cbn [globals]. by rewrite Hglobal. }
    unfold new_js_object_from_constructor. rewrite Hundef. cbn [JS_IsUndefined].
    eexists. split; [reflexivity|]. by destruct js_array.
Qed.

Lemma missing_constructor_raises_witness :
  raises
    (java_set_to_js_set (jobject_to_js_value 1 Samples.store) Samples.store
       Samples.bare_runtime 15)
    (TypeMappingError "JS constructor 'Set' not found.") /\
  raises
    (java_map_to_js_map (jobject_to_js_value 1 Samples.store) Samples.store
       Samples.bare_runtime 16)
    (TypeMappingError "JS constructor 'Map' not found.").
Proof.
  split.
  - eapply (proj1 (missing_constructor_raises 1 Samples.store
                     Samples.bare_runtime 15)); [reflexivity|].
    vm_compute. reflexivity.
  - eapply (proj2 (missing_constructor_raises 1 Samples.store
                     Samples.bare_runtime 16)); [reflexivity|].
    vm_compute. reflexivity.
Defined.

(** ** What it means for a loop to pass an element

    The theorems below speak of a loop that runs over some elements
    without being left.  These lemmas spell that out for one element:
    it is not the container itself, its conversion returns a value that
    is not the sentinel, and the loop passes the remaining elements
    from the context in which the value has been stored. *)

Lemma is_exception_false v : JS_IsException v = false <-> v <> JS_EXCEPTION.
Proof. destruct v; cbn; split; congruence. Qed.

Lemma java_list_loop_passes convert java_list element rest i a context context' :
  java_list_loop convert java_list (element :: rest) i a context
    = Ok (false, context') <->
  element <> Some java_list /\
  exists js_element context1,
    convert context element = Ok (js_element, context1) /\
    js_element <> JS_EXCEPTION /\
    java_list_loop convert java_list rest (S i) a
      (JS_SetPropertyUint32 context1 a i js_element) = Ok (false, context').
Proof.
  cbn [java_list_loop]. unfold IsSameObject. split.
  - case_bool_decide as Hsame; [done|].
    destruct (convert context element) as [[js_element c]| |]; cbn [bind];
      [|done..].
    destruct (JS_IsException js_element) eqn:E; cbn [negb]; [done|].
    intros H. split; [congruence|].
    eexists _, _. split; [reflexivity|]. split; [|exact H].
    by apply is_exception_false.
  - intros (Hself & js_element & c & -> & Hv & H).
    rewrite bool_decide_eq_false_2 by congruence. cbn [bind].
    apply is_exception_false in Hv. by rewrite Hv.
Qed.

Lemma java_set_loop_passes convert java_set key rest index a context context' :
  java_set_loop convert java_set (key :: rest) index a context
    = Ok (LoopEnd, context') <->
  key <> Some java_set /\
  exists item context1,
    convert context key = Ok (item, context1) /\
    item <> JS_EXCEPTION /\
    java_set_loop convert java_set rest (S index) a
      (JS_SetPropertyUint32 context1 a index item) = Ok (LoopEnd, context').
Proof.
  cbn [java_set_loop]. unfold IsSameObject. split.
  - case_bool_decide as Hsame; [done|].
    destruct (convert context key) as [[item c]| |]; cbn [bind]; [|done..].
    destruct (JS_IsException item) eqn:E; [done|].
    intros H. split; [congruence|].
    eexists _, _. split; [reflexivity|]. split; [|exact H].
    by apply is_exception_false.
  - intros (Hself & item & c & -> & Hv & H).
    rewrite bool_decide_eq_false_2 by congruence. cbn [bind].
    apply is_exception_false in Hv. by rewrite Hv.
Qed.

Lemma java_map_loop_passes convert java_map key value rest index a
    context context' :
  java_map_loop convert java_map ((key, value) :: rest) index a context
    = Ok (LoopEnd, context') <->
  key <> Some java_map /\ value <> Some java_map /\
  exists js_key context1 js_value context2,
    convert context key = Ok (js_key, context1) /\
    js_key <> JS_EXCEPTION /\
    convert context1 value = Ok (js_value, context2) /\
    js_value <> JS_EXCEPTION /\
    let js_entry := (JS_NewArray context2).1 in
    java_map_loop convert java_map rest (S index) a
      (JS_SetPropertyUint32
         (JS_SetPropertyUint32
            (JS_SetPropertyUint32 (JS_NewArray context2).2 js_entry 0 js_key)
            js_entry 1 js_value)
         a index js_entry) = Ok (LoopEnd, context').
Proof.
  cbn [java_map_loop]. unfold IsSameObject. split.
  - case_bool_decide as Hkey; [done|].
    destruct (convert context key) as [[js_key c1]| |]; cbn [bind]; [|done..].
    destruct (JS_IsException js_key) eqn:Ek; [done|].
    case_bool_decide as Hvalue; [done|].
    destruct (convert c1 value) as [[js_value c2]| |] eqn:Ec; cbn [bind];
      [|done..].
    destruct (JS_IsException js_value) eqn:Ev; [done|].
    intros H. split; [congruence|]. split; [congruence|].
    eexists _, _, _, _. split; [reflexivity|].
    split; [by apply is_exception_false|]. split; [exact Ec|].
    split; [by apply is_exception_false|].
    by destruct (JS_NewArray c2).
  - intros (Hkey & Hvalue & js_key & c1 & js_value & c2 & -> & Hk & Hc & Hv & H).
    rewrite bool_decide_eq_false_2 by congruence. cbn [bind].
    apply is_exception_false in Hk. rewrite Hk.
    rewrite bool_decide_eq_false_2 by congruence. rewrite Hc. cbn [bind].
    apply is_exception_false in Hv. rewrite Hv.
    by destruct (JS_NewArray c2).
Qed.

Lemma java_object_loop_passes convert env java_map key value rest a
    context context' :
  java_object_loop convert env java_map ((key, value) :: rest) a context
    = Ok (LoopEnd, context') <->
  key <> Some java_map /\ value <> Some java_map /\
  exists str_key js_value context1,
    GetStringUTFChars env key = Some str_key /\
    convert context value = Ok (js_value, context1) /\
    js_value <> JS_EXCEPTION /\
    java_object_loop convert env java_map rest a
      (JS_SetProperty context1 a str_key js_value) = Ok (LoopEnd, context').
Proof.
  cbn [java_object_loop]. unfold IsSameObject. split.
  - case_bool_decide as Hkey; [done|].
    destruct (negb _); [done|].
    destruct (GetStringUTFChars env key) as [str_key|]; [|done].
    case_bool_decide as Hvalue; [done|].
    destruct (convert context value) as [[js_value c1]| |]; cbn [bind];
      [|done..].
    destruct (JS_IsException js_value) eqn:Ev; [done|].
    intros H. split; [congruence|]. split; [congruence|].
    eexists _, _, _. split; [reflexivity|]. split; [reflexivity|].
    split; [by apply is_exception_false|]. exact H.
  - intros (Hkey & Hvalue & str_key & js_value & c1 & Hs & Hc & Hv & H).
    rewrite bool_decide_eq_false_2 by congruence.
    assert (Hinst : IsInstanceOf env key cls_string = true).
    { unfold GetStringUTFChars in Hs. destruct key as [k|]; [|done].
      cbn [IsInstanceOf]. by destruct (env k). }
    rewrite Hinst, Hs. cbn [negb].
    rewrite bool_decide_eq_false_2 by congruence. rewrite Hc. cbn [bind].
    apply is_exception_false in Hv. by rewrite Hv.
Qed.

(** ** Loops over a prefix of the iteration *)

Lemma java_list_loop_app convert java_list prefix suffix a :
  forall i context context1,
    java_list_loop convert java_list prefix i a context = Ok (false, context1) ->
    java_list_loop convert java_list (prefix ++ suffix) i a context =
      java_list_loop convert java_list suffix (i + length prefix) a context1.
Proof.
  induction prefix as [|element rest IH]; intros i context context1;
    cbn [java_list_loop app length].
  - intros [= <-]. by rewrite Nat.add_0_r.
  - destruct (IsSameObject _ _); [done|].
    destruct (convert context element) as [[js_element c]| |]; cbn [bind];
      [|done..].
    destruct (negb _); [|done].
    intros H. rewrite (IH _ _ _ H). f_equal. lia.
Qed.

(** A list that holds itself never completes its loop without
    [has_exception]. *)
Lemma java_list_loop_self convert java_list elements a :
  Some java_list ∈ elements ->
  forall i context b context',
    java_list_loop convert java_list elements i a context = Ok (b, context') ->
    b = true.
Proof.
  induction elements as [|element rest IH]; intros Hin i context b context';
    cbn [java_list_loop].
  - by apply elem_of_nil in Hin.
  - unfold IsSameObject. case_bool_decide as Hsame; [by intros [= <- _]|].
    apply elem_of_cons in Hin as [Hin | Hin]; [congruence|].
    destruct (convert context element) as [[js_element c]| |]; cbn [bind];
      [|done..].
    destruct (negb _); [|by intros [= <- _]].
    by apply IH.
Qed.

Lemma java_object_loop_app convert env java_map prefix suffix a :
  forall context context1,
    java_object_loop convert env java_map prefix a context
      = Ok (LoopEnd, context1) ->
    java_object_loop convert env java_map (prefix ++ suffix) a context =
      java_object_loop convert env java_map suffix a context1.
Proof.
  induction prefix as [|[key value] rest IH]; intros context context1;
    cbn [java_object_loop app].
  - by intros [= <-].
  - destruct (IsSameObject _ key); [done|].
    destruct (negb _); [done|].
    destruct (GetStringUTFChars env key); [|done].
    destruct (IsSameObject _ value); [done|].
    destruct (convert context value) as [[js_value c]| |]; cbn [bind];
      [|done..].
    destruct (JS_IsException _); [done|].
    apply IH.
Qed.

Lemma released_free context id : released (JS_FreeValue context (JS_Obj id)) (JS_Obj id).
Proof. cbn. apply lookup_delete_eq. Qed.

(** C6, amended: for every host list [L] whose element at some index is
    [L] itself, a conversion of [L] that returns never yields a
    destination array: it returns the sentinel and the in-progress
    array has been released.  When moreover the elements before the
    first such index convert successfully, the conversion does return:
    it raises CircularReferenceError, releases the in-progress array
    and returns the sentinel. *)
Theorem list_containing_itself :
  forall (stack : nat) (env : JNIEnv) (context : JSContext) (value : nat)
         (inst : jinstance) (elements : list jref),
    env value = JInstance inst ->
    instance_list inst = Some elements ->
    Some value ∈ elements ->
    let js_array := (JS_NewArray context).1 in
    let r := jobject_to_js_value (S stack) env context (Some value) in
    (forall v context',
        r = Ok (v, context') -> v = JS_EXCEPTION /\ released context' js_array) /\
    (forall prefix rest context1,
        elements = prefix ++ Some value :: rest ->
        java_list_loop (jobject_to_js_value stack env) value prefix 0
          js_array (JS_NewArray context).2 = Ok (false, context1) ->
        raises r CircularReferenceError /\
        exists context',
          r = Ok (JS_EXCEPTION, context') /\ released context' js_array).
Proof.
  intros stack env context value inst elements Henv Hlist Hin js_array r.
  subst r js_array. rewrite (route_list _ _ _ _ _ _ Henv Hlist).
  unfold java_list_to_js_array, method_list_elements.
  rewrite Henv, Hlist. cbn [default from_option id].
  unfold JS_NewArray, alloc. cbn [fst snd].
  split.
  - intros v context'.
    destruct (java_list_loop _ _ _ _ _ _) as [[b c]| |] eqn:E; cbn [bind];
      [|done..].
    rewrite (java_list_loop_self _ _ _ _ Hin _ _ _ _ E).
    intros [= <- <-]. split; [done|apply released_free].
  - intros prefix rest context1 -> Hprefix.
    rewrite (java_list_loop_app _ _ _ _ _ _ _ _ Hprefix).
    cbn [java_list_loop]. unfold IsSameObject.
    rewrite bool_decide_eq_true_2 by done. cbn [bind].
    split; [|eexists; split; [reflexivity|apply released_free]].
    eexists. split; [reflexivity|]. reflexivity.
Qed.

Lemma list_containing_itself_witness :
  raises (jobject_to_js_value 2 Samples.store Samples.runtime (Some 11))
    CircularReferenceError.
Proof.
  pose proof (list_elem_of_further _ (Some 2) _ (list_elem_of_here (Some 11) []))
    as Hin.
  apply (proj2 (list_containing_itself 1 Samples.store Samples.runtime 11
                  _ [Some 2; Some 11] eq_refl eq_refl Hin)
           [Some 2] [] _ eq_refl eq_refl).
Defined.

(** C6 fails as stated: the list [[new Object(), L]] holds itself at
    index 1, yet its conversion raises the TypeMappingError of the
    element before it, not CircularReferenceError. *)
Lemma list_containing_itself_counterexample :
  method_list_elements (Samples.store 10) !! 1 = Some (Some 10) /\
  raises (jobject_to_js_value 2 Samples.store Samples.runtime (Some 10))
    (TypeMappingError "Cannot convert java type 'java.lang.Object' to a js value.") /\
  ~ raises (jobject_to_js_value 2 Samples.store Samples.runtime (Some 10))
      CircularReferenceError.
Proof.
  split; [reflexivity|]. split.
  - eexists. split; vm_compute; reflexivity.
  - intros (context' & Hr & He). vm_compute in Hr.
    injection Hr as <-. vm_compute in He. discriminate He.
Qed.

(** C5, amended: for every string-keyed host object in which the
    entries before an entry whose key is a non-null host object of a
    class other than String are all processed without leaving the loop
    (each has a string key and a value that is not the object itself
    and converts successfully), that key not being the object itself,
    the conversion raises a TypeMappingError whose message mentions
    "only string keys are supported" and returns the sentinel at once:
    nothing is done after the error is raised, and no destination
    object is handed to the caller.  (A NULL key is not such a key: it
    passes the type test, see [null_key_faults].) *)
Theorem non_string_key_raises :
  forall (stack : nat) (env : JNIEnv) (context : JSContext) (value : nat)
         (prefix rest : list (jref * jref)) (key : nat) (val : jref)
         (context1 : JSContext),
    env value = JJsObject (prefix ++ (Some key, val) :: rest) ->
    java_object_loop (jobject_to_js_value stack env) env value prefix
      (JS_NewObject context).1 (JS_NewObject context).2
      = Ok (LoopEnd, context1) ->
    key <> value ->
    instance_of (env key) cls_string = false ->
    jobject_to_js_value (S stack) env context (Some value) =
      Ok (JS_EXCEPTION,
          JS_Throw context1 (TypeMappingError only_string_keys_message)) /\
    raises (jobject_to_js_value (S stack) env context (Some value))
      (TypeMappingError only_string_keys_message) /\
    mentions only_string_keys_message "only string keys are supported" = true.
Proof.
  intros stack env context value prefix rest key val context1
    Henv Hprefix Hself Hkey.
  assert (Hr : jobject_to_js_value (S stack) env context (Some value) =
    Ok (JS_EXCEPTION,
        JS_Throw context1 (TypeMappingError only_string_keys_message))).
  { rewrite (route_js_object _ _ _ _ (first_match_js_object _ _ _ Henv)).
    unfold java_map_to_js_object, method_map_entry_set. rewrite Henv.
    destruct (JS_NewObject context) as [js_object context0].
    cbn [fst snd] in Hprefix.
    rewrite (java_object_loop_app _ _ _ _ _ _ _ _ Hprefix).
    cbn [java_object_loop]. unfold IsSameObject.
    rewrite bool_decide_eq_false_2 by congruence.
    cbn [IsInstanceOf]. rewrite Hkey. reflexivity. }
  split; [exact Hr|]. split; [|reflexivity].
  rewrite Hr. eexists. split; reflexivity.
Qed.

Lemma non_string_key_raises_witness :
  raises (jobject_to_js_value 2 Samples.store Samples.runtime (Some 17))
    (TypeMappingError only_string_keys_message).
Proof.
  assert (Hself : 2 <> 17) by discriminate.
  apply (non_string_key_raises 1 Samples.store Samples.runtime 17
           [(Some 1, Some 2)] [] 2 (Some 1) _ eq_refl eq_refl Hself eq_refl).
Defined.

(** A NULL key is outside the amended C5: JNI's [IsInstanceOf] accepts
    NULL for every class, so the key passes the string test and the
    source goes on to [GetStringUTFChars] on NULL, which is outside
    the contract of that call.  No TypeMappingError is raised and the
    conversion has no outcome. *)
Lemma null_key_faults stack env context value prefix rest val context1 :
  env value = JJsObject (prefix ++ (None, val) :: rest) ->
  java_object_loop (jobject_to_js_value stack env) env value prefix
    (JS_NewObject context).1 (JS_NewObject context).2
    = Ok (LoopEnd, context1) ->
  jobject_to_js_value (S stack) env context (Some value) = JniFault.
Proof.
  intros Henv Hprefix.
  rewrite (route_js_object _ _ _ _ (first_match_js_object _ _ _ Henv)).
  unfold java_map_to_js_object, method_map_entry_set. rewrite Henv.
  destruct (JS_NewObject context) as [js_object context0].
  cbn [fst snd] in Hprefix.
  by rewrite (java_object_loop_app _ _ _ _ _ _ _ _ Hprefix).
Qed.

(** C5 fails as stated: the string-keyed object
    [{"k": new Object(), 7: "k"}] has the non-string key [7], yet its
    conversion stops at the entry before it and raises the
    TypeMappingError of that entry's value, whose message does not
    mention "only string keys are supported". *)
Lemma non_string_key_raises_counterexample :
  method_map_entry_set (Samples.store 8) !! 1 = Some (Some 2, Some 1) /\
  IsInstanceOf Samples.store (Some 2) cls_string = false /\
  raises (jobject_to_js_value 2 Samples.store Samples.runtime (Some 8))
    (TypeMappingError (cannot_convert_message "java.lang.Object")) /\
  ~ (exists message,
        mentions message "only string keys are supported" = true /\
        raises (jobject_to_js_value 2 Samples.store Samples.runtime (Some 8))
          (TypeMappingError message)).
Proof.
  split; [reflexivity|]. split; [reflexivity|]. split.
  - eexists. split; vm_compute; reflexivity.
  - intros (message & Hm & context' & Hr & He). vm_compute in Hr.
    injection Hr as <-. vm_compute in He. injection He as <-.
    vm_compute in Hm. discriminate Hm.
Qed.

(** On the non-string-key path the source returns without releasing the
    destination object it allocated: the object stays in the heap. *)
Lemma non_string_key_object_stays :
  exists context',
    jobject_to_js_value 2 Samples.store Samples.runtime (Some 9)
      = Ok (JS_EXCEPTION, context') /\
    heap context' !! 0 = Some (JSPlainObject ∅).
Proof. eexists. split; vm_compute; reflexivity. Qed.

(** C10, amended: in the string-keyed-object converter the identity
    check on a key runs before the string-type check on that key.  For
    every string-keyed host object in which the entries before an entry
    keyed by the object itself are all processed without leaving the
    loop, the conversion raises CircularReferenceError, releases the
    destination object and returns the sentinel; it does not raise
    TypeMappingError, even though the key is not a string. *)
Theorem self_key_raises_circular_reference :
  forall (stack : nat) (env : JNIEnv) (context : JSContext) (value : nat)
         (prefix rest : list (jref * jref)) (val : jref)
         (context1 : JSContext),
    env value = JJsObject (prefix ++ (Some value, val) :: rest) ->
    java_object_loop (jobject_to_js_value stack env) env value prefix
      (JS_NewObject context).1 (JS_NewObject context).2
      = Ok (LoopEnd, context1) ->
    let r := jobject_to_js_value (S stack) env context (Some value) in
    IsInstanceOf env (Some value) cls_string = false /\
    raises r CircularReferenceError /\
    (forall message, ~ raises r (TypeMappingError message)) /\
    exists context',
      r = Ok (JS_EXCEPTION, context') /\
      released context' (JS_NewObject context).1.
Proof.
  intros stack env context value prefix rest val context1 Henv Hprefix r.
  assert (Hr : r = Ok (JS_EXCEPTION,
                       JS_FreeValue (throw_circular_ref_error context1)
                         (JS_NewObject context).1)).
  { subst r.
    rewrite (route_js_object _ _ _ _ (first_match_js_object _ _ _ Henv)).
    unfold java_map_to_js_object, method_map_entry_set. rewrite Henv.
    destruct (JS_NewObject context) as [js_object context0].
    cbn [fst snd] in Hprefix |- *.
    rewrite (java_object_loop_app _ _ _ _ _ _ _ _ Hprefix).
    cbn [java_object_loop]. unfold IsSameObject.
    rewrite bool_decide_eq_true_2 by done. reflexivity. }
  split; [cbn [IsInstanceOf]; by rewrite Henv|].
  rewrite Hr. unfold JS_NewObject, alloc. cbn [fst].
  split; [eexists; split; reflexivity|].
  split.
  - intros message (context' & [= <-] & He). discriminate He.
  - eexists. split; [reflexivity|]. apply released_free.
Qed.

Lemma self_key_raises_circular_reference_witness :
  raises (jobject_to_js_value 2 Samples.store Samples.runtime (Some 13))
    CircularReferenceError.
Proof.
  apply (self_key_raises_circular_reference 1 Samples.store Samples.runtime 13
           [(Some 1, Some 2)] [] (Some 1) _ eq_refl eq_refl).
Defined.

(** C10 fails as stated: the string-keyed object [{7: "k", self: "k"}]
    holds itself as a key, yet its conversion stops at the entry before
    it and raises TypeMappingError, not CircularReferenceError. *)
Lemma self_key_raises_circular_reference_counterexample :
  method_map_entry_set (Samples.store 12) !! 1 = Some (Some 12, Some 1) /\
  raises (jobject_to_js_value 2 Samples.store Samples.runtime (Some 12))
    (TypeMappingError only_string_keys_message) /\
  ~ raises (jobject_to_js_value 2 Samples.store Samples.runtime (Some 12))
      CircularReferenceError.
Proof.
  split; [reflexivity|]. split.
  - eexists. split; vm_compute; reflexivity.
  - intros (context' & Hr & He). vm_compute in Hr.
    injection Hr as <-. vm_compute in He. discriminate He.
Qed.

(** ** Where the source departs from its specification *)

(** Whenever the loop over a set is left by [break], that is when the
    conversion of a member has yielded the sentinel, and the runtime
    has a Set constructor, the result of the conversion is the object
    the constructor returns. *)
Lemma java_set_break_constructs convert env context java_set context1 ctor :
  java_set_loop convert java_set (method_set_iterator (env java_set)) 0
    (JS_NewArray context).1 (JS_NewArray context).2 = Ok (LoopBreak, context1) ->
  globals context1 !! "Set" = Some ctor ->
  JS_IsUndefined ctor = false ->
  java_set_to_js_set convert env context java_set =
    Ok (JS_Obj (next_id context1),
        JS_FreeValue
          (JS_CallConstructor context1 ctor [(JS_NewArray context).1]).2
          (JS_NewArray context).1).
Proof.
  intros Hloop Hctor Hdef. unfold java_set_to_js_set.
  destruct (JS_NewArray context) as [js_array context0].
  cbn [fst snd] in *. rewrite Hloop. cbn [bind].
  unfold new_js_object_from_constructor, JS_GetPropertyStr_global.
  rewrite Hctor. cbn [default from_option id]. by rewrite Hdef.
Qed.

(** The loop over an object array that does not hold itself never sets
    [has_exception], whatever the conversions of its elements yield. *)
Lemma object_array_loop_no_exception convert value elements a :
  Some value ∉ elements ->
  forall i context b context',
    object_array_loop convert value elements i a context = Ok (b, context') ->
    b = false.
Proof.
  induction elements as [|element rest IH]; intros Hself i context b context';
    cbn [object_array_loop].
  - by intros [= <- _].
  - apply not_elem_of_cons in Hself as [Hne Hself].
    unfold IsSameObject. rewrite bool_decide_eq_false_2 by congruence.
    destruct (convert context element) as [[js_element c]| |]; cbn [bind];
      [|done..].
    by apply IH.
Qed.

(** C1, on the source: the set [{new Object()}] has a member whose
    conversion yields the sentinel and no member identical to the set.
    Its loop is left by [break], so the Set constructor is still called
    on the intermediate array, and the conversion returns the Set
    instance built from it instead of the sentinel. *)
Theorem set_element_failure_builds_set :
  forall stack : nat,
    method_set_iterator (Samples.store 4) = [Some 0] /\
    raises (jobject_to_js_value (S stack) Samples.store Samples.runtime (Some 0))
      (TypeMappingError (cannot_convert_message "java.lang.Object")) /\
    exists (id : nat) (context' : JSContext),
      jobject_to_js_value (S (S stack)) Samples.store Samples.runtime (Some 4)
        = Ok (JS_Obj id, context') /\
      heap context' !! id = Some (JSInstance (JS_Function "Set") []).
Proof.
  intros stack. split; [reflexivity|]. split.
  - eexists. split; vm_compute; reflexivity.
  - eexists _, _. split; vm_compute; reflexivity.
Qed.

(** C2, on the source: in the maps [{"k": new Object()}] and
    [{new Object(): "k"}] the conversion of a value, respectively of a
    key, yields the sentinel.  The conversion returns the sentinel, but
    the intermediate array of pairs is not released: it is still in the
    heap when the call returns. *)
Theorem map_conversion_failure_keeps_array :
  forall stack : nat,
    let js_array := (JS_NewArray Samples.runtime).1 in
    method_map_entry_set (Samples.store 5) = [(Some 1, Some 0)] /\
    method_map_entry_set (Samples.store 6) = [(Some 0, Some 1)] /\
    raises (jobject_to_js_value (S stack) Samples.store Samples.runtime (Some 0))
      (TypeMappingError (cannot_convert_message "java.lang.Object")) /\
    (exists context',
        jobject_to_js_value (S (S stack)) Samples.store Samples.runtime (Some 5)
          = Ok (JS_EXCEPTION, context') /\
        live context' js_array /\ ~ released context' js_array) /\
    (exists context',
        jobject_to_js_value (S (S stack)) Samples.store Samples.runtime (Some 6)
          = Ok (JS_EXCEPTION, context') /\
        live context' js_array /\ ~ released context' js_array).
Proof.
  intros stack js_array.
  split; [reflexivity|]. split; [reflexivity|].
  split; [eexists; split; vm_compute; reflexivity|].
  split; (eexists; split; [vm_compute; reflexivity|]); split.
  - by eexists.
  - vm_compute. discriminate.
  - by eexists.
  - vm_compute. discriminate.
Qed.

(** C3, on the source: in the object array [{new Object(), "k"}] the
    conversion of element 0 yields the sentinel.  The loop stores the
    sentinel in slot 0, goes on to element 1, and the conversion returns
    the destination array instead of the sentinel. *)
Theorem object_array_element_failure_returns_array :
  forall stack : nat,
    Samples.store 7 = JObjectArray "[Ljava.lang.Object;" [Some 0; Some 1] /\
    raises (jobject_to_js_value (S stack) Samples.store Samples.runtime (Some 0))
      (TypeMappingError (cannot_convert_message "java.lang.Object")) /\
    exists (id : nat) (context' : JSContext),
      jobject_to_js_value (S (S stack)) Samples.store Samples.runtime (Some 7)
        = Ok (JS_Obj id, context') /\
      heap context' !! id = Some (JSArray [JS_EXCEPTION; JS_String "k"]).
Proof.
  intros stack. split; [reflexivity|]. split.
  - eexists. split; vm_compute; reflexivity.
  - eexists _, _. split; vm_compute; reflexivity.
Qed.

(** A boxed 64-bit integer is read through an [int]-returning call, so
    what reaches the runtime is its low 32 bits, sign-extended. *)
Lemma long_conversion_narrows stack env context value n :
  env value = JLong n ->
  jobject_to_js_value (S stack) env context (Some value)
    = Ok (JS_Int64 (to_jint n), context).
Proof.
  intros Henv. cbn [jobject_to_js_value].
  unfold convert_by_instance_of, IsInstanceOf, method_integer_int_value.
  by rewrite Henv.
Qed.

Lemma to_jint_range n : (- 2 ^ 31 <= to_jint n < 2 ^ 31)%Z.
Proof.
  unfold to_jint.
  pose proof (Z.mod_pos_bound (n + 2 ^ 31) (2 ^ 32) eq_refl). lia.
Qed.

(** C4, on the source: the boxed 64-bit integer 4294967296 (2^32, outside
    the 32-bit range) converts successfully, but to the int64 number 0
    and not to 4294967296. *)
Theorem long_outside_int_range_is_truncated :
  forall stack : nat,
    Samples.store 3 = JLong 4294967296 /\
    jobject_to_js_value (S stack) Samples.store Samples.runtime (Some 3)
      = Ok (JS_Int64 0, Samples.runtime) /\
    JS_Int64 0 <> JS_Int64 4294967296.
Proof.
  intros stack. split; [reflexivity|]. split; [|discriminate].
  by rewrite (long_conversion_narrows _ _ _ _ 4294967296).
Qed.

(** ** Scalars *)

Lemma with_heap_id c : with_heap c (heap c) = c.
Proof. by destruct c. Qed.

Lemma scalar_not_sentinel env value v :
  scalar_value env value = Some v -> JS_IsException v = false.
Proof.
  destruct value as [a|]; cbn; [|by intros [= <-]].
  destruct (env a); intros [= <-]; done.
Qed.

Lemma convert_scalar stack env context value v :
  scalar_value env value = Some v ->
  jobject_to_js_value (S stack) env context value = Ok (v, context).
Proof.
  destruct value as [a|]; cbn [scalar_value jobject_to_js_value];
    [|by intros [= <-]].
  unfold convert_by_instance_of, IsInstanceOf, method_boolean_boolean_value,
    method_integer_int_value, method_float_float_value,
    method_double_double_value, GetStringUTFChars.
  destruct (env a) as [[]| | | | | | | | | | | | |];
    cbn [instance_of bind]; intros [= <-]; reflexivity.
Qed.

Lemma java_list_loop_scalars stack env java_list id :
  scalar_value env (Some java_list) = None ->
  forall elements items,
    Forall2 (fun e v => scalar_value env e = Some v) elements items ->
    forall done context,
      heap context !! id = Some (JSArray done) ->
      java_list_loop (jobject_to_js_value (S stack) env) java_list elements
        (length done) (JS_Obj id) context
      = Ok (false,
            with_heap context (<[id := JSArray (done ++ items)]> (heap context))).
Proof.
  intros Hself elements items Hall.
  induction Hall as [|e v elements items He Hall IH]; intros done context Hid;
    cbn [java_list_loop].
  - by rewrite app_nil_r, insert_id, with_heap_id.
  - unfold IsSameObject. rewrite bool_decide_eq_false_2 by congruence.
    rewrite (convert_scalar _ _ _ _ _ He). cbn [bind].
    rewrite (scalar_not_sentinel _ _ _ He). cbn [negb].
    rewrite (set_index_append _ _ _ _ Hid).
    specialize (IH (done ++ [v])
      (with_heap context (<[id := JSArray (done ++ [v])]> (heap context)))).
    rewrite length_app, Nat.add_1_r in IH.
    rewrite IH by apply lookup_insert_eq.
    cbn [with_heap heap next_id exception globals].
    by rewrite insert_insert_eq, <- app_assoc.
Qed.

(** X1: a host list whose elements are NULL, boxed primitives or strings
    converts to a fresh array that holds the converted elements in
    index order (the empty array for the empty list); nothing else in
    the runtime changes and no exception is raised. *)
Theorem list_of_scalars_to_array :
  forall (stack : nat) (env : JNIEnv) (context : JSContext) (value : nat)
         (inst : jinstance) (elements : list jref) (items : list JSValue),
    env value = JInstance inst ->
    instance_list inst = Some elements ->
    Forall2 (fun e v => scalar_value env e = Some v) elements items ->
    jobject_to_js_value (S (S stack)) env context (Some value) =
      Ok (JS_Obj (next_id context),
          mk_JSContext
            (<[next_id context := JSArray items]> (heap context))
            (S (next_id context)) (exception context) (globals context)).
Proof.
  intros stack env context value inst elements items Henv Hlist Hall.
  rewrite (route_list _ _ _ _ _ _ Henv Hlist).
  unfold java_list_to_js_array, method_list_elements.
  rewrite Henv, Hlist. cbn [default from_option id].
  unfold JS_NewArray, alloc.
  assert (Hself : scalar_value env (Some value) = None)
    by (cbn; by rewrite Henv).
  rewrite (java_list_loop_scalars stack env value (next_id context) Hself
             elements items Hall [])
    by apply lookup_insert_eq.
  cbn [bind app with_heap heap next_id exception globals].
  by rewrite insert_insert_eq.
Qed.

Lemma list_of_scalars_to_array_witness :
  jobject_to_js_value 2 MoreSamples.store Samples.runtime (Some 5) =
    Ok (JS_Obj 0,
        mk_JSContext
          (<[0 := JSArray [JS_Bool true; JS_NULL; JS_String "a"]]> ∅)
          1 None (globals Samples.runtime)).
Proof.
  apply (list_of_scalars_to_array 0 MoreSamples.store Samples.runtime 5
           _ [Some 3; None; Some 0] _ eq_refl eq_refl).
  repeat constructor.
Defined.

(** ** Primitive arrays *)

Lemma primitive_array_loop_eq {A : Type} (box : A -> JSValue) (arr : list A) :
  forall done context id,
    heap context !! id = Some (JSArray done) ->
    primitive_array_loop box arr (length done) (JS_Obj id) context =
      with_heap context
        (<[id := JSArray (done ++ (box <$> arr))]> (heap context)).
Proof.
  induction arr as [|x arr IH]; intros done context id Hid;
    cbn [primitive_array_loop fmap list_fmap].
  - by rewrite app_nil_r, insert_id, with_heap_id.
  - rewrite (set_index_append _ _ _ _ Hid).
    specialize (IH (done ++ [box x])
      (with_heap context (<[id := JSArray (done ++ [box x])]> (heap context)))
      id).
    rewrite length_app, Nat.add_1_r in IH.
    rewrite IH by apply lookup_insert_eq.
    cbn [with_heap heap next_id exception globals].
    by rewrite insert_insert_eq, <- app_assoc.
Qed.

Lemma primitive_array_eq {A : Type} (box : A -> JSValue) (arr : list A) context :
  primitive_array box arr context =
    (JS_Obj (next_id context),
     mk_JSContext (<[next_id context := JSArray (box <$> arr)]> (heap context))
       (S (next_id context)) (exception context) (globals context)).
Proof.
  unfold primitive_array, JS_NewArray, alloc.
  rewrite (primitive_array_loop_eq box arr []) by apply lookup_insert_eq.
  cbn [app with_heap heap next_id exception globals].
  by rewrite insert_insert_eq.
Qed.

(** X2: a primitive array (boolean, int, long, float or double elements)
    converts, without any recursive call, to a fresh array holding one
    boxed value per element in index order: booleans, int32 numbers,
    int64 numbers carrying all 64 bits, and float64 numbers.  Nothing
    else in the runtime changes and no exception is raised. *)
Theorem primitive_array_to_array :
  forall (stack : nat) (env : JNIEnv) (context : JSContext) (value : nat)
         (items : list JSValue),
    primitive_array_items (env value) = Some items ->
    jobject_to_js_value (S stack) env context (Some value) =
      Ok (JS_Obj (next_id context),
          mk_JSContext
            (<[next_id context := JSArray items]> (heap context))
            (S (next_id context)) (exception context) (globals context)).
Proof.
  intros stack env context value items Hitems.
  cbn [jobject_to_js_value].
  unfold convert_by_instance_of, IsInstanceOf, convert_by_class_name.
  destruct (env value) eqn:Henv; try discriminate Hitems;
    injection Hitems as <-; cbn [instance_of bind JS_IsUndefined negb];
    cbn [class_name GetBooleanArrayElements GetIntArrayElements
         GetLongArrayElements GetFloatArrayElements GetDoubleArrayElements];
    rewrite ?Henv; cbn [String.eqb Ascii.eqb Bool.eqb];
    rewrite primitive_array_eq; try reflexivity.
  do 5 f_equal. apply list_fmap_ext. intros _ [] _; reflexivity.
Qed.

Lemma primitive_array_to_array_witness :
  jobject_to_js_value 1 MoreSamples.store Samples.runtime (Some 10) =
    Ok (JS_Obj 0,
        mk_JSContext
          (<[0 := JSArray [JS_Int64 4294967296; JS_Int64 (-1)]]> ∅)
          1 None (globals Samples.runtime)).
Proof.
  apply (primitive_array_to_array 0 MoreSamples.store Samples.runtime 10 _ eq_refl).
Defined.

(** ** Values without a conversion rule *)

Lemma prefix_app s t : String.prefix s (s +:+ t) = true.
Proof.
  induction s as [|c s IH]; simpl; [by destruct t|].
  by destruct (ascii_dec c c).
Qed.

Lemma mentions_prefix s t : mentions (s +:+ t) s = true.
Proof.
  destruct s as [|c s]; [by destruct t|].
  pose proof (prefix_app (String c s) t) as H.
  change (String c s +:+ t) with (String c (s +:+ t)) in *.
  cbn [mentions]. by rewrite H.
Qed.

Lemma mentions_app pre s sub : mentions s sub = true -> mentions (pre +:+ s) sub = true.
Proof.
  intros H. induction pre as [|c pre IH]; simpl; [done|].
  rewrite IH. by repeat case_match.
Qed.

Lemma eqb_bracket_name s name :
  starts_with_bracket s = true ->
  starts_with_bracket name = false ->
  String.eqb s name = false.
Proof.
  intros Hs Hname. destruct (String.eqb s name) eqn:E; [|done].
  apply String.eqb_eq in E. congruence.
Qed.

(** X3: a host value that passes none of the type tests and whose class
    name is not "kotlin.Unit" and does not start with '[' has no
    conversion rule: provided the message fits the 100-byte buffer it
    is formatted into, the conversion raises a TypeMappingError whose
    message mentions the class name, returns the sentinel, and leaves
    the objects of the runtime untouched. *)
Theorem unsupported_type_raises :
  forall (stack : nat) (env : JNIEnv) (context : JSContext) (value : nat),
    first_match env value = None ->
    class_name (env value) <> "kotlin.Unit" ->
    starts_with_bracket (class_name (env value)) = false ->
    String.length (cannot_convert_message (class_name (env value))) < 100 ->
    jobject_to_js_value (S stack) env context (Some value) =
      Ok (JS_EXCEPTION,
          JS_Throw context
            (TypeMappingError (cannot_convert_message (class_name (env value))))) /\
    mentions (cannot_convert_message (class_name (env value)))
      (class_name (env value)) = true.
Proof.
  intros stack env context value Hfirst Hunit Hbracket _. split.
  - cbn [jobject_to_js_value].
    rewrite convert_by_instance_of_first_match, Hfirst.
    cbn [bind JS_IsUndefined negb]. unfold convert_by_class_name.
    destruct (String.eqb "kotlin.Unit" _) eqn:E;
      [apply String.eqb_eq in E; congruence|].
    rewrite !eqb_bracket_name by done. by rewrite Hbracket.
  - unfold cannot_convert_message. apply mentions_app, mentions_prefix.
Qed.

Lemma unsupported_type_raises_witness :
  raises (jobject_to_js_value 1 Samples.store Samples.runtime (Some 0))
    (TypeMappingError "Cannot convert java type 'java.lang.Object' to a js value.").
Proof.
  assert (Hunit : class_name (Samples.store 0) <> "kotlin.Unit") by discriminate.
  assert (Hlen : String.length
                   (cannot_convert_message (class_name (Samples.store 0))) < 100)
    by (vm_compute; lia).
  destruct (unsupported_type_raises 0 Samples.store Samples.runtime 0
              eq_refl Hunit eq_refl Hlen) as [Hr _].
  eexists. split; [exact Hr|reflexivity].
Defined.

(** ** Conversions work on fresh objects only *)

Section frame.

Implicit Types (c : JSContext) (v : JSValue) (n aid : nat).

Lemma next_id_set_index c a i v : next_id (JS_SetPropertyUint32 c a i v) = next_id c.
Proof.
  unfold JS_SetPropertyUint32. destruct a; try done.
  by destruct (heap c !! id) as [[]|].
Qed.

Lemma next_id_set_property c a p v : next_id (JS_SetPropertyStr c a p v) = next_id c.
Proof.
  unfold JS_SetPropertyStr. destruct a; try done.
  by destruct (heap c !! id) as [[]|].
Qed.

Lemma next_id_free c v : next_id (JS_FreeValue c v) = next_id c.
Proof. by destruct v. Qed.

Lemma extends_refl n c : extends_above n c c.
Proof. by split. Qed.

Lemma extends_trans n c1 c2 c3 :
  extends_above n c1 c2 -> extends_above n c2 c3 -> extends_above n c1 c3.
Proof.
  intros [Hn1 Hh1] [Hn2 Hh2]. split; [lia|].
  intros id Hid. by rewrite Hh2, Hh1.
Qed.

Lemma extends_weaken m n c c' :
  m <= n -> extends_above n c c' -> extends_above m c c'.
Proof. intros Hmn [Hn Hh]. split; [done|]. intros id Hid. apply Hh. lia. Qed.

Lemma extends_set_index n aid c i v :
  n <= aid -> extends_above n c (JS_SetPropertyUint32 c (JS_Obj aid) i v).
Proof.
  intros Hle. unfold JS_SetPropertyUint32.
  destruct (heap c !! aid) as [[]|]; try apply extends_refl.
  split; [done|]. intros id Hid. cbn. apply lookup_insert_ne. lia.
Qed.

Lemma extends_set_property n aid c p v :
  n <= aid -> extends_above n c (JS_SetPropertyStr c (JS_Obj aid) p v).
Proof.
  intros Hle. unfold JS_SetPropertyStr.
  destruct (heap c !! aid) as [[]|]; try apply extends_refl;
    (split; [done|]; intros id Hid; cbn; apply lookup_insert_ne; lia).
Qed.

Lemma extends_free n aid c :
  n <= aid -> extends_above n c (JS_FreeValue c (JS_Obj aid)).
Proof.
  intros Hle. split; [done|]. intros id Hid. cbn. apply lookup_delete_ne. lia.
Qed.

Lemma extends_throw n c err : extends_above n c (JS_Throw c err).
Proof. by split. Qed.

Lemma extends_alloc n c o : n <= next_id c -> extends_above n c (alloc c o).2.
Proof.
  intros Hle. split; [cbn; lia|]. intros id Hid. cbn.
  apply lookup_insert_ne. lia.
Qed.

Lemma extends_constructor n c name argv :
  n <= next_id c ->
  extends_above n c (new_js_object_from_constructor c name argv).2.
Proof.
  intros Hle. unfold new_js_object_from_constructor.
  destruct (JS_IsUndefined _); [apply extends_throw|].
  by apply extends_alloc.
Qed.

Lemma extends_primitive_array_loop {A} (box : A -> JSValue) n aid arr :
  n <= aid ->
  forall i c, extends_above n c (primitive_array_loop box arr i (JS_Obj aid) c).
Proof.
  intros Hle. induction arr as [|x arr IH]; intros i c;
    cbn [primitive_array_loop]; [apply extends_refl|].
  eapply extends_trans; [by apply extends_set_index|apply IH].
Qed.

Variable convert : converter.
Hypothesis convert_frame : keeps_frame convert.

Lemma convert_extends n c value v c' :
  n <= next_id c ->
  convert c value = Ok (v, c') ->
  extends_above n c c' /\ n <= next_id c'.
Proof.
  intros Hle H. apply convert_frame in H as [H _].
  split; [by eapply extends_weaken|]. destruct H. lia.
Qed.

Local Tactic Notation "frame_convert" constr(c) constr(x) "as"
    ident(v) ident(c') ident(H) ident(Hn) :=
  let E := fresh "E" in
  destruct (convert c x) as [[v c']| |] eqn:E; cbn [bind]; [|done..];
  eapply convert_extends in E as [H Hn]; [|eassumption].

Lemma extends_next n c c' : extends_above n c c' -> n <= next_id c -> n <= next_id c'.
Proof. intros [H _] ?. lia. Qed.

Lemma frame_java_list_loop n aid java_list elements :
  n <= aid ->
  forall i c b c',
    n <= next_id c ->
    java_list_loop convert java_list elements i (JS_Obj aid) c = Ok (b, c') ->
    extends_above n c c'.
Proof.
  intros Hle. induction elements as [|element rest IH]; intros i c b c' Hn;
    cbn [java_list_loop].
  - intros [= _ <-]. apply extends_refl.
  - destruct (IsSameObject _ _); [intros [= _ <-]; apply extends_throw|].
    frame_convert c element as js_element c1 H1 Hn1.
    destruct (negb _); [|by intros [= _ <-]].
    intros H. apply IH in H; [|by rewrite next_id_set_index].
    eapply extends_trans; [exact H1|].
    eapply extends_trans; [by apply (extends_set_index n aid)|exact H].
Qed.

Lemma frame_java_set_loop n aid java_set iterator :
  n <= aid ->
  forall index c exit c',
    n <= next_id c ->
    java_set_loop convert java_set iterator index (JS_Obj aid) c = Ok (exit, c') ->
    extends_above n c c'.
Proof.
  intros Hle. induction iterator as [|key rest IH]; intros index c exit c' Hn;
    cbn [java_set_loop].
  - intros [= _ <-]. apply extends_refl.
  - destruct (IsSameObject _ _).
    { intros [= _ <-]. split; [done|].
      intros id Hid. cbn. apply lookup_delete_ne. lia. }
    frame_convert c key as item c1 H1 Hn1.
    destruct (JS_IsException _); [by intros [= _ <-]|].
    intros H. apply IH in H; [|by rewrite next_id_set_index].
    eapply extends_trans; [exact H1|].
    eapply extends_trans; [by apply (extends_set_index n aid)|exact H].
Qed.

Lemma frame_java_map_loop n aid java_map iterator :
  n <= aid ->
  forall index c exit c',
    n <= next_id c ->
    java_map_loop convert java_map iterator index (JS_Obj aid) c = Ok (exit, c') ->
    extends_above n c c'.
Proof.
  intros Hle. induction iterator as [|[key value] rest IH];
    intros index c exit c' Hn; cbn [java_map_loop].
  - intros [= _ <-]. apply extends_refl.
  - destruct (IsSameObject _ key).
    { intros [= _ <-]. split; [done|].
      intros id Hid. cbn. apply lookup_delete_ne. lia. }
    frame_convert c key as js_key c1 H1 Hn1.
    destruct (JS_IsException _); [by intros [= _ <-]|].
    destruct (IsSameObject _ value).
    { intros [= _ <-]. eapply extends_trans; [exact H1|].
      split; [done|]. intros id Hid. cbn. apply lookup_delete_ne. lia. }
    frame_convert c1 value as js_value c2 H2 Hn2.
    destruct (JS_IsException _);
      [intros [= _ <-]; by eapply extends_trans|].
    unfold JS_NewArray.
    pose proof (extends_alloc n c2 (JSArray []) Hn2) as Ha.
    destruct (alloc c2 (JSArray [])) as [js_entry c3] eqn:Ealloc.
    cbn [snd] in Ha.
    assert (Hentry : js_entry = JS_Obj (next_id c2)) by (by injection Ealloc).
    subst js_entry.
    intros H. apply IH in H.
    + eapply extends_trans; [exact H1|].
      eapply extends_trans; [exact H2|].
      eapply extends_trans; [exact Ha|].
      eapply extends_trans; [by apply (extends_set_index n (next_id c2))|].
      eapply extends_trans; [by apply (extends_set_index n (next_id c2))|].
      eapply extends_trans; [by apply (extends_set_index n aid)|exact H].
    + rewrite !next_id_set_index. by eapply extends_next.
Qed.

Lemma frame_java_object_loop env n aid java_map iterator :
  n <= aid ->
  forall c exit c',
    n <= next_id c ->
    java_object_loop convert env java_map iterator (JS_Obj aid) c
      = Ok (exit, c') ->
    extends_above n c c'.
Proof.
  intros Hle. induction iterator as [|[key value] rest IH];
    intros c exit c' Hn; cbn [java_object_loop].
  - intros [= _ <-]. apply extends_refl.
  - destruct (IsSameObject _ key).
    { intros [= _ <-]. split; [done|].
      intros id Hid. cbn. apply lookup_delete_ne. lia. }
    destruct (negb _); [intros [= _ <-]; apply extends_throw|].
    destruct (GetStringUTFChars env key); [|done].
    destruct (IsSameObject _ value).
    { intros [= _ <-]. split; [done|].
      intros id Hid. cbn. apply lookup_delete_ne. lia. }
    frame_convert c value as js_value c1 H1 Hn1.
    destruct (JS_IsException _); [by intros [= _ <-]|].
    intros H. apply IH in H;
      [|unfold JS_SetProperty; by rewrite next_id_set_property].
    eapply extends_trans; [exact H1|].
    eapply extends_trans; [by apply (extends_set_property n aid)|exact H].
Qed.

Lemma frame_object_array_loop n aid value elements :
  n <= aid ->
  forall i c b c',
    n <= next_id c ->
    object_array_loop convert value elements i (JS_Obj aid) c = Ok (b, c') ->
    extends_above n c c'.
Proof.
  intros Hle. induction elements as [|element rest IH]; intros i c b c' Hn;
    cbn [object_array_loop].
  - intros [= _ <-]. apply extends_refl.
  - destruct (IsSameObject _ _).
    { intros [= _ <-]. split; [done|].
      intros id Hid. cbn. apply lookup_delete_ne. lia. }
    frame_convert c element as js_element c1 H1 Hn1.
    intros H. apply IH in H; [|by rewrite next_id_set_index].
    eapply extends_trans; [exact H1|].
    eapply extends_trans; [by apply (extends_set_index n aid)|exact H].
Qed.

End frame.

Lemma java_set_loop_exit convert java_set iterator :
  forall index a context exit context',
    java_set_loop convert java_set iterator index a context
      = Ok (exit, context') ->
    exit = LoopReturn JS_EXCEPTION \/ exit = LoopBreak \/ exit = LoopEnd.
Proof.
  induction iterator as [|key rest IH]; intros index a context exit context';
    cbn [java_set_loop].
  - intros [= <- _]. auto.
  - destruct (IsSameObject _ _); [intros [= <- _]; auto|].
    destruct (convert context key) as [[item c]| |]; cbn [bind]; [|done..].
    destruct (JS_IsException _); [intros [= <- _]; auto|]. apply IH.
Qed.

Lemma java_map_loop_exit convert java_map iterator :
  forall index a context exit context',
    java_map_loop convert java_map iterator index a context
      = Ok (exit, context') ->
    exit = LoopReturn JS_EXCEPTION \/ exit = LoopEnd.
Proof.
  induction iterator as [|[key value] rest IH];
    intros index a context exit context'; cbn [java_map_loop].
  - intros [= <- _]. auto.
  - destruct (IsSameObject _ key); [intros [= <- _]; auto|].
    destruct (convert context key) as [[js_key c1]| |]; cbn [bind]; [|done..].
    destruct (JS_IsException _); [intros [= <- _]; auto|].
    destruct (IsSameObject _ value); [intros [= <- _]; auto|].
    destruct (convert c1 value) as [[js_value c2]| |]; cbn [bind]; [|done..].
    destruct (JS_IsException _); [intros [= <- _]; auto|].
    destruct (JS_NewArray c2). apply IH.
Qed.

Lemma frame_constructor c name argv r c' :
  new_js_object_from_constructor c name argv = (r, c') ->
  extends_above (next_id c) c c' /\
  forall id, r = JS_Obj id -> next_id c <= id < next_id c'.
Proof.
  intros E. split.
  - change c' with (r, c').2. rewrite <- E. by apply extends_constructor.
  - revert E. unfold new_js_object_from_constructor, JS_CallConstructor, alloc.
    destruct (JS_IsUndefined _); intros [= <- <-] id; [done|].
    intros [= <-]. cbn. lia.
Qed.

Lemma frame_throwable env c throwable :
  extends_above (next_id c) c (java_throwable_to_js_error env c throwable).2 /\
  (java_throwable_to_js_error env c throwable).1 = JS_Obj (next_id c) /\
  next_id c < next_id (java_throwable_to_js_error env c throwable).2.
Proof.
  unfold java_throwable_to_js_error, JS_NewError, JS_NewArray, alloc.
  rewrite stack_trace_loop_primitive. cbn [fst snd].
  set (n := next_id c).
  set (c1 := mk_JSContext (<[n := JSErrorObject ∅]> (heap c)) (S n) _ _).
  set (c2 := JS_SetPropertyStr c1 (JS_Obj n) "name" _).
  set (c3 := match method_throwable_get_message _ with
             | Some m => _ | None => _ end).
  assert (H1 : extends_above n c c1).
  { split; [cbn; lia|]. intros id Hid. cbn. apply lookup_insert_ne. lia. }
  assert (H2 : extends_above n c1 c2) by (by apply extends_set_property).
  assert (H3 : extends_above n c2 c3).
  { subst c3. destruct (method_throwable_get_message _);
      by apply extends_set_property. }
  assert (Hn3 : next_id c3 = S n).
  { subst c3 c2. destruct (method_throwable_get_message _);
      by rewrite !next_id_set_property. }
  rewrite Hn3.
  set (c4 := mk_JSContext (<[S n := JSArray []]> (heap c3)) (S (S n)) _ _).
  assert (H4 : extends_above n c3 c4).
  { split; [cbn; lia|]. intros id Hid. cbn. apply lookup_insert_ne. lia. }
  pose proof (extends_primitive_array_loop JS_NewString n (S n)
                (method_throwable_get_stack_trace (env throwable))
                (Nat.le_succ_diag_r n) 0 c4) as H5.
  set (c5 := primitive_array_loop _ _ _ _ _) in *.
  assert (H6 : extends_above n c5 (JS_SetPropertyStr c5 (JS_Obj n) "stack" (JS_Obj (S n))))
    by (by apply extends_set_property).
  split; [|split; [done|]].
  - eapply extends_trans; [exact H1|]. eapply extends_trans; [exact H2|].
    eapply extends_trans; [exact H3|]. eapply extends_trans; [exact H4|].
    eapply extends_trans; [exact H5|exact H6].
  - rewrite next_id_set_property.
    destruct H5 as [H5 _]. cbn in H5. lia.
Qed.

Section frame_converters.

Variable convert : converter.
Hypothesis convert_frame : keeps_frame convert.

Lemma frame_convert_by_instance_of env value c v c' :
  convert_by_instance_of convert env c value = Ok (v, c') ->
  extends_above (next_id c) c c' /\
  forall id, v = JS_Obj id -> next_id c <= id < next_id c'.
Proof.
  rewrite convert_by_instance_of_first_match.
  destruct (first_match env value) as [[]|]; cbn [branch_of];
    try (intros [= <- <-]; split; [apply extends_refl|done]).
  - destruct (Bool.eqb _ _); intros [= <- <-]; split;
      solve [apply extends_refl|done].
  - destruct (GetStringUTFChars _ _); [|done].
    intros [= <- <-]; split; [apply extends_refl|done].
  - unfold java_list_to_js_array, JS_NewArray.
    pose proof (extends_alloc (next_id c) c (JSArray []) (le_n _)) as Ha.
    destruct (alloc c (JSArray [])) as [js_array c0] eqn:Ea.
    injection Ea as <- Ec0. cbn [snd] in Ha.
    assert (Hn0 : next_id c0 = S (next_id c)) by (by subst c0).
    destruct (java_list_loop _ _ _ _ _ _) as [[b c1]| |] eqn:E; cbn [bind];
      [|done..].
    apply (frame_java_list_loop convert convert_frame (next_id c)) in E;
      [|done|lia].
    destruct b; intros [= <- <-].
    + split; [|done]. eapply extends_trans; [exact Ha|].
      eapply extends_trans; [exact E|]. by apply extends_free.
    + split; [by eapply extends_trans|].
      intros id [= <-]. destruct E as [E _]. lia.
  - unfold java_map_to_js_object, JS_NewObject.
    pose proof (extends_alloc (next_id c) c (JSPlainObject ∅) (le_n _)) as Ha.
    destruct (alloc c (JSPlainObject ∅)) as [js_object c0] eqn:Ea.
    injection Ea as <- Ec0. cbn [snd] in Ha.
    assert (Hn0 : next_id c0 = S (next_id c)) by (by subst c0).
    destruct (java_object_loop _ _ _ _ _ _) as [[exit c1]| |] eqn:E; cbn [bind];
      [|done..].
    pose proof (java_object_loop_exit _ _ _ _ _ _ _ _ E) as Hexit.
    apply (frame_java_object_loop convert convert_frame _ (next_id c)) in E;
      [|done|lia].
    destruct Hexit as [-> | ->]; intros [= <- <-].
    + split; [by eapply extends_trans|done].
    + split; [by eapply extends_trans|].
      intros id [= <-]. destruct E as [E _]. lia.
  - unfold java_map_to_js_map, JS_NewArray.
    pose proof (extends_alloc (next_id c) c (JSArray []) (le_n _)) as Ha.
    destruct (alloc c (JSArray [])) as [js_array c0] eqn:Ea.
    injection Ea as <- Ec0. cbn [snd] in Ha.
    assert (Hn0 : next_id c0 = S (next_id c)) by (by subst c0).
    destruct (java_map_loop _ _ _ _ _ _) as [[exit c1]| |] eqn:E; cbn [bind];
      [|done..].
    pose proof (java_map_loop_exit _ _ _ _ _ _ _ _ E) as Hexit.
    apply (frame_java_map_loop convert convert_frame (next_id c)) in E;
      [|done|lia].
    destruct Hexit as [-> | ->].
    + intros [= <- <-]. split; [by eapply extends_trans|done].
    + destruct (new_js_object_from_constructor _ _ _) as [r c2] eqn:Ec.
      apply frame_constructor in Ec as [Hc Hr].
      intros [= <- <-]. split.
      * eapply extends_trans; [exact Ha|]. eapply extends_trans; [exact E|].
        eapply extends_trans;
          [eapply extends_weaken; [|exact Hc]; destruct E; lia|].
        by apply extends_free.
      * intros id Hid. apply Hr in Hid. cbn [next_id with_heap].
        destruct E as [E _]. lia.
  - unfold java_set_to_js_set, JS_NewArray.
    pose proof (extends_alloc (next_id c) c (JSArray []) (le_n _)) as Ha.
    destruct (alloc c (JSArray [])) as [js_array c0] eqn:Ea.
    injection Ea as <- Ec0. cbn [snd] in Ha.
    assert (Hn0 : next_id c0 = S (next_id c)) by (by subst c0).
    destruct (java_set_loop _ _ _ _ _ _) as [[exit c1]| |] eqn:E; cbn [bind];
      [|done..].
    pose proof (java_set_loop_exit _ _ _ _ _ _ _ _ E) as Hexit.
    apply (frame_java_set_loop convert convert_frame (next_id c)) in E;
      [|done|lia].
    destruct Hexit as [-> | [-> | ->]].
    + intros [= <- <-]. split; [by eapply extends_trans|done].
    + destruct (new_js_object_from_constructor _ _ _) as [r c2] eqn:Ec.
      apply frame_constructor in Ec as [Hc Hr].
      intros [= <- <-]. split.
      * eapply extends_trans; [exact Ha|]. eapply extends_trans; [exact E|].
        eapply extends_trans;
          [eapply extends_weaken; [|exact Hc]; destruct E; lia|].
        by apply extends_free.
      * intros id Hid. apply Hr in Hid. cbn [next_id with_heap].
        destruct E as [E _]. lia.
    + destruct (new_js_object_from_constructor _ _ _) as [r c2] eqn:Ec.
      apply frame_constructor in Ec as [Hc Hr].
      intros [= <- <-]. split.
      * eapply extends_trans; [exact Ha|]. eapply extends_trans; [exact E|].
        eapply extends_trans;
          [eapply extends_weaken; [|exact Hc]; destruct E; lia|].
        by apply extends_free.
      * intros id Hid. apply Hr in Hid. cbn [next_id with_heap].
        destruct E as [E _]. lia.
  - destruct (frame_throwable env c value) as (He & Hv & Hn).
    destruct (java_throwable_to_js_error env c value) as [r c2].
    cbn [fst snd] in *. intros [= <- <-]. split; [done|].
    intros id. rewrite Hv. intros [= <-]. lia.
Qed.

Lemma frame_convert_by_class_name env value c v c' :
  convert_by_class_name convert env c value = Ok (v, c') ->
  extends_above (next_id c) c c' /\
  forall id, v = JS_Obj id -> next_id c <= id < next_id c'.
Proof.
  unfold convert_by_class_name.
  assert (Hprim : forall {A} (box : A -> JSValue) arr,
    Ok (primitive_array box arr c) = Ok (v, c') ->
    extends_above (next_id c) c c' /\
    forall id, v = JS_Obj id -> next_id c <= id < next_id c').
  { intros A box arr. rewrite primitive_array_eq. intros [= <- <-]. split.
    - split; [cbn; lia|]. intros id Hid. cbn. apply lookup_insert_ne. lia.
    - intros id [= <-]. cbn. lia. }
  destruct (String.eqb "kotlin.Unit" _);
    [intros [= <- <-]; split; [apply extends_refl|done]|].
  repeat (destruct (String.eqb _ _); [apply Hprim|]).
  destruct (starts_with_bracket _);
    [|intros [= <- <-]; split; [apply extends_throw|done]].
  unfold JS_NewArray.
  pose proof (extends_alloc (next_id c) c (JSArray []) (le_n _)) as Ha.
  destruct (alloc c (JSArray [])) as [js_array c0] eqn:Ea.
  injection Ea as <- Ec0. cbn [snd] in Ha.
  assert (Hn0 : next_id c0 = S (next_id c)) by (by subst c0).
  destruct (object_array_loop _ _ _ _ _ _) as [[b c1]| |] eqn:E; cbn [bind];
    [|done..].
  apply (frame_object_array_loop convert convert_frame (next_id c)) in E;
    [|done|lia].
  destruct b; intros [= <- <-].
  - split; [by eapply extends_trans|done].
  - split; [by eapply extends_trans|].
    intros id [= <-]. destruct E as [E _]. lia.
Qed.

End frame_converters.

Lemma frame_jobject_to_js_value env stack :
  keeps_frame (jobject_to_js_value stack env).
Proof.
  induction stack as [|stack IH]; intros context value v context';
    cbn [jobject_to_js_value]; [done|].
  destruct value as [value|];
    [|intros [= <- <-]; split; [apply extends_refl|done]].
  destruct (convert_by_instance_of _ _ _ _) as [[r c]| |] eqn:E; cbn [bind];
    [|done..].
  apply (frame_convert_by_instance_of _ IH) in E as [He Hr].
  destruct (JS_IsUndefined r) eqn:Hu; cbn [negb].
  - intros H. apply (frame_convert_by_class_name _ IH) in H as [He' Hr'].
    split.
    + eapply extends_trans; [exact He|].
      eapply extends_weaken; [|exact He']. destruct He. lia.
    + intros id Hid. apply Hr' in Hid. destruct He. lia.
  - by intros [= <- <-].
Qed.

(** ** The sentinel is returned only with an exception pending *)

Section pending.

Implicit Types (c : JSContext) (v : JSValue).

Lemma exception_set_index c a i v :
  exception (JS_SetPropertyUint32 c a i v) = exception c.
Proof.
  unfold JS_SetPropertyUint32. destruct a; try done.
  by destruct (heap c !! id) as [[]|].
Qed.

Lemma exception_set_property c a p v :
  exception (JS_SetPropertyStr c a p v) = exception c.
Proof.
  unfold JS_SetPropertyStr. destruct a; try done.
  by destruct (heap c !! id) as [[]|].
Qed.

Lemma exception_free c v : exception (JS_FreeValue c v) = exception c.
Proof. by destruct v. Qed.

Lemma exception_primitive_array_loop {A} (box : A -> JSValue) arr :
  forall i a c, exception (primitive_array_loop box arr i a c) = exception c.
Proof.
  induction arr as [|x arr IH]; intros; cbn [primitive_array_loop]; [done|].
  by rewrite IH, exception_set_index.
Qed.

Lemma exception_throwable env c throwable :
  exception (java_throwable_to_js_error env c throwable).2 = exception c.
Proof.
  unfold java_throwable_to_js_error, JS_NewError, JS_NewArray, alloc.
  cbn [snd]. rewrite exception_set_property, stack_trace_loop_primitive.
  rewrite exception_primitive_array_loop. cbn [exception].
  destruct (method_throwable_get_message _);
    by rewrite !exception_set_property.
Qed.

Lemma pending_constructor c name argv r c' :
  new_js_object_from_constructor c name argv = (r, c') ->
  (is_Some (exception c) -> is_Some (exception c')) /\
  (r = JS_EXCEPTION -> is_Some (exception c')).
Proof.
  unfold new_js_object_from_constructor, JS_CallConstructor, alloc.
  destruct (JS_IsUndefined _); intros [= <- <-]; cbn; split; eauto; done.
Qed.

Variable convert : converter.
Hypothesis convert_sound : signals_soundly convert.

Local Tactic Notation "sound_convert" constr(c) constr(x) "as"
    ident(v) ident(c') ident(Hk) ident(Hs) :=
  let E := fresh "E" in
  destruct (convert c x) as [[v c']| |] eqn:E; cbn [bind]; [|done..];
  apply convert_sound in E as [Hk Hs].

Lemma pending_java_list_loop java_list elements :
  forall i a c b c',
    java_list_loop convert java_list elements i a c = Ok (b, c') ->
    (is_Some (exception c) -> is_Some (exception c')) /\
    (b = true -> is_Some (exception c')).
Proof.
  induction elements as [|element rest IH]; intros i a c b c';
    cbn [java_list_loop].
  - by intros [= <- <-].
  - destruct (IsSameObject _ _); [intros [= <- <-]; cbn; eauto|].
    sound_convert c element as js_element c1 Hk Hs.
    destruct (JS_IsException js_element) eqn:Ee; cbn [negb].
    + intros [= <- <-]. split; [done|].
      intros _. by apply Hs, is_exception_eq.
    + intros H. apply IH in H as [Hk' Hs']. rewrite exception_set_index in Hk'.
      split; [tauto|done].
Qed.

Lemma pending_java_set_loop java_set iterator :
  forall index a c exit c',
    java_set_loop convert java_set iterator index a c = Ok (exit, c') ->
    (is_Some (exception c) -> is_Some (exception c')) /\
    (exit <> LoopEnd -> is_Some (exception c')).
Proof.
  induction iterator as [|key rest IH]; intros index a c exit c';
    cbn [java_set_loop].
  - by intros [= <- <-].
  - destruct (IsSameObject _ _);
      [intros [= <- <-]; rewrite exception_free; cbn; eauto|].
    sound_convert c key as item c1 Hk Hs.
    destruct (JS_IsException item) eqn:Ee.
    + intros [= <- <-]. split; [done|].
      intros _. by apply Hs, is_exception_eq.
    + intros H. apply IH in H as [Hk' Hs']. rewrite exception_set_index in Hk'.
      split; [tauto|done].
Qed.

Lemma pending_java_map_loop java_map iterator :
  forall index a c exit c',
    java_map_loop convert java_map iterator index a c = Ok (exit, c') ->
    (is_Some (exception c) -> is_Some (exception c')) /\
    (exit <> LoopEnd -> is_Some (exception c')).
Proof.
  induction iterator as [|[key value] rest IH]; intros index a c exit c';
    cbn [java_map_loop].
  - by intros [= <- <-].
  - destruct (IsSameObject _ key);
      [intros [= <- <-]; rewrite exception_free; cbn; eauto|].
    sound_convert c key as js_key c1 Hk Hs.
    destruct (JS_IsException js_key) eqn:Ek.
    { intros [= <- <-]. split; [done|].
      intros _. by apply Hs, is_exception_eq. }
    destruct (IsSameObject _ value);
      [intros [= <- <-]; rewrite exception_free; cbn; eauto|].
    sound_convert c1 value as js_value c2 Hk2 Hs2.
    destruct (JS_IsException js_value) eqn:Ev.
    { intros [= <- <-]. split; [tauto|].
      intros _. by apply Hs2, is_exception_eq. }
    unfold JS_NewArray, alloc. intros H. apply IH in H as [Hk' Hs'].
    rewrite !exception_set_index in Hk'. cbn [exception] in Hk'.
    split; [tauto|done].
Qed.

Lemma pending_java_object_loop env java_map iterator :
  forall a c exit c',
    java_object_loop convert env java_map iterator a c = Ok (exit, c') ->
    (is_Some (exception c) -> is_Some (exception c')) /\
    (exit <> LoopEnd -> is_Some (exception c')).
Proof.
  induction iterator as [|[key value] rest IH]; intros a c exit c';
    cbn [java_object_loop].
  - by intros [= <- <-].
  - destruct (IsSameObject _ key);
      [intros [= <- <-]; rewrite exception_free; cbn; eauto|].
    destruct (negb _); [intros [= <- <-]; cbn; eauto|].
    destruct (GetStringUTFChars env key); [|done].
    destruct (IsSameObject _ value);
      [intros [= <- <-]; rewrite exception_free; cbn; eauto|].
    sound_convert c value as js_value c1 Hk Hs.
    destruct (JS_IsException js_value) eqn:Ev.
    { intros [= <- <-]. split; [done|].
      intros _. by apply Hs, is_exception_eq. }
    intros H. apply IH in H as [Hk' Hs'].
    unfold JS_SetProperty in Hk'. rewrite exception_set_property in Hk'.
    split; [tauto|done].
Qed.

Lemma pending_object_array_loop value elements :
  forall i a c b c',
    object_array_loop convert value elements i a c = Ok (b, c') ->
    (is_Some (exception c) -> is_Some (exception c')) /\
    (b = true -> is_Some (exception c')).
Proof.
  induction elements as [|element rest IH]; intros i a c b c';
    cbn [object_array_loop].
  - by intros [= <- <-].
  - destruct (IsSameObject _ _); [intros [= <- <-]; cbn; eauto|].
    sound_convert c element as js_element c1 Hk Hs.
    intros H. apply IH in H as [Hk' Hs']. rewrite exception_set_index in Hk'.
    split; [tauto|done].
Qed.

Lemma pending_convert_by_instance_of env value c v c' :
  convert_by_instance_of convert env c value = Ok (v, c') ->
  (is_Some (exception c) -> is_Some (exception c')) /\
  (v = JS_EXCEPTION -> is_Some (exception c')).
Proof.
  rewrite convert_by_instance_of_first_match.
  destruct (first_match env value) as [[]|]; cbn [branch_of];
    try (by intros [= <- <-]).
  - destruct (Bool.eqb _ _); by intros [= <- <-].
  - destruct (GetStringUTFChars _ _); [by intros [= <- <-]|done].
  - unfold java_list_to_js_array, JS_NewArray, alloc.
    destruct (java_list_loop _ _ _ _ _ _) as [[b c1]| |] eqn:E; cbn [bind];
      [|done..].
    apply pending_java_list_loop in E as [Hk Hs]. cbn [exception] in Hk.
    destruct b; intros [= <- <-]; rewrite ?exception_free;
      cbn [exception with_heap]; split; auto; done.
  - unfold java_map_to_js_object, JS_NewObject, alloc.
    destruct (java_object_loop _ _ _ _ _ _) as [[exit c1]| |] eqn:E; cbn [bind];
      [|done..].
    apply pending_java_object_loop in E as [Hk Hs]. cbn [exception] in Hk.
    destruct exit; intros [= <- <-]; split; auto; done.
  - unfold java_map_to_js_map, JS_NewArray, alloc.
    destruct (java_map_loop _ _ _ _ _ _) as [[exit c1]| |] eqn:E; cbn [bind];
      [|done..].
    apply pending_java_map_loop in E as [Hk Hs]. cbn [exception] in Hk.
    destruct exit; [intros [= <- <-]; split; auto; done|..];
      (destruct (new_js_object_from_constructor _ _ _) as [r c2] eqn:Ec;
       apply pending_constructor in Ec as [Hk2 Hs2];
       intros [= <- <-]; rewrite ?exception_free; cbn [exception with_heap];
       split; auto).
  - unfold java_set_to_js_set, JS_NewArray, alloc.
    destruct (java_set_loop _ _ _ _ _ _) as [[exit c1]| |] eqn:E; cbn [bind];
      [|done..].
    apply pending_java_set_loop in E as [Hk Hs]. cbn [exception] in Hk.
    destruct exit; [intros [= <- <-]; split; auto; done|..];
      (destruct (new_js_object_from_constructor _ _ _) as [r c2] eqn:Ec;
       apply pending_constructor in Ec as [Hk2 Hs2];
       intros [= <- <-]; rewrite ?exception_free; cbn [exception with_heap];
       split; auto).
  - pose proof (exception_throwable env c value) as He.
    pose proof (frame_throwable env c value) as (_ & Hv & _).
    destruct (java_throwable_to_js_error env c value) as [r c2].
    cbn [fst snd] in *. intros [= <- <-]. rewrite He. split; [done|].
    by rewrite Hv.
Qed.

Lemma pending_convert_by_class_name env value c v c' :
  convert_by_class_name convert env c value = Ok (v, c') ->
  (is_Some (exception c) -> is_Some (exception c')) /\
  (v = JS_EXCEPTION -> is_Some (exception c')).
Proof.
  unfold convert_by_class_name.
  destruct (String.eqb "kotlin.Unit" _); [by intros [= <- <-]|].
  repeat (destruct (String.eqb _ _);
    [rewrite primitive_array_eq; by intros [= <- <-]|]).
  destruct (starts_with_bracket _); [|intros [= <- <-]; cbn; eauto].
  unfold JS_NewArray, alloc.
  destruct (object_array_loop _ _ _ _ _ _) as [[b c1]| |] eqn:E; cbn [bind];
    [|done..].
  apply pending_object_array_loop in E as [Hk Hs]. cbn [exception] in Hk.
  destruct b; intros [= <- <-]; split; auto; done.
Qed.

End pending.

Lemma sound_jobject_to_js_value env stack :
  signals_soundly (jobject_to_js_value stack env).
Proof.
  induction stack as [|stack IH]; intros context value v context';
    cbn [jobject_to_js_value]; [done|].
  destruct value as [value|]; [|by intros [= <- <-]].
  destruct (convert_by_instance_of _ _ _ _) as [[r c]| |] eqn:E; cbn [bind];
    [|done..].
  apply (pending_convert_by_instance_of _ IH) in E as [Hk Hs].
  destruct (JS_IsUndefined r) eqn:Hu; cbn [negb].
  - intros H. apply (pending_convert_by_class_name _ IH) in H as [Hk' Hs'].
    split; [tauto|done].
  - by intros [= <- <-].
Qed.

(** X4: a conversion that returns works on fresh objects only: it never
    hands out an identity twice, every object that was in the runtime
    before the call (below the next fresh identity) is exactly as it
    was, neither modified nor released, and an object it returns is
    one it allocated during the call. *)
Theorem conversion_keeps_existing_objects :
  forall (stack : nat) (env : JNIEnv) (context : JSContext) (value : jref)
         (v : JSValue) (context' : JSContext),
    jobject_to_js_value stack env context value = Ok (v, context') ->
    next_id context <= next_id context' /\
    (forall id, id < next_id context ->
                heap context' !! id = heap context !! id) /\
    (forall id, v = JS_Obj id -> next_id context <= id < next_id context').
Proof.
  intros stack env context value v context' H.
  apply frame_jobject_to_js_value in H as [[Hn Hh] Hv]. auto.
Qed.

Lemma conversion_keeps_existing_objects_witness :
  exists v context',
    jobject_to_js_value 2 MoreSamples.store MoreSamples.busy_runtime (Some 5)
      = Ok (v, context') /\
    v = JS_Obj 1 /\
    heap context' !! 0 = Some (JSArray [JS_NULL]).
Proof.
  eexists _, _. split; [reflexivity|]. split; [reflexivity|].
  exact (proj1 (proj2 (conversion_keeps_existing_objects 2 MoreSamples.store
    MoreSamples.busy_runtime (Some 5) _ _ eq_refl)) 0 (le_n 1)).
Defined.

(** X5: a conversion that returns leaves the properties of the global
    object of the runtime as they were. *)
Theorem conversion_keeps_globals :
  forall (stack : nat) (env : JNIEnv) (context : JSContext) (value : jref)
         (v : JSValue) (context' : JSContext),
    jobject_to_js_value stack env context value = Ok (v, context') ->
    globals context' = globals context.
Proof. intros stack env. apply globals_jobject_to_js_value. Qed.

Lemma conversion_keeps_globals_witness :
  exists v context',
    jobject_to_js_value 2 MoreSamples.store MoreSamples.busy_runtime (Some 6)
      = Ok (v, context') /\
    globals context' = globals MoreSamples.busy_runtime.
Proof.
  eexists _, _. split; [reflexivity|].
  exact (conversion_keeps_globals 2 MoreSamples.store MoreSamples.busy_runtime
           (Some 6) _ _ eq_refl).
Defined.

(** X6: a conversion returns the sentinel only with an exception pending
    in the runtime, and it never clears an exception that was pending
    when it was called. *)
Theorem sentinel_means_pending_exception :
  forall (stack : nat) (env : JNIEnv) (context : JSContext) (value : jref)
         (v : JSValue) (context' : JSContext),
    jobject_to_js_value stack env context value = Ok (v, context') ->
    (v = JS_EXCEPTION -> is_Some (exception context')) /\
    (is_Some (exception context) -> is_Some (exception context')).
Proof.
  intros stack env context value v context' H.
  apply sound_jobject_to_js_value in H as [Hk Hs]. auto.
Qed.

Lemma sentinel_means_pending_exception_witness :
  is_Some (exception
    (JS_Throw Samples.runtime
       (TypeMappingError (cannot_convert_message "java.lang.Object")))).
Proof.
  exact (proj1 (sentinel_means_pending_exception 1 Samples.store Samples.runtime
                  (Some 0) JS_EXCEPTION _ eq_refl) eq_refl).
Defined.

(** ** Lists that convert *)

Lemma java_list_loop_complete stack env java_list n :
  forall elements done c c',
    n < next_id c ->
    heap c !! n = Some (JSArray done) ->
    java_list_loop (jobject_to_js_value stack env) java_list elements
      (length done) (JS_Obj n) c = Ok (false, c') ->
    exists items,
      heap c' !! n = Some (JSArray (done ++ items)) /\
      Forall2 (fun e x => x <> JS_EXCEPTION /\
                          exists c1 c2,
                            jobject_to_js_value stack env c1 e = Ok (x, c2))
        elements items.
Proof.
  induction elements as [|element rest IH]; intros done c c' Hn Hdone;
    cbn [java_list_loop].
  - intros [= <-]. exists []. by rewrite app_nil_r.
  - destruct (IsSameObject _ _); [done|].
    destruct (jobject_to_js_value stack env c element) as [[x c1]| |] eqn:E;
      cbn [bind]; [|done..].
    destruct (JS_IsException x) eqn:Ex; cbn [negb]; [done|].
    pose proof (frame_jobject_to_js_value env stack _ _ _ _ E) as [[Hn1 Hh1] _].
    assert (Hdone1 : heap c1 !! n = Some (JSArray done))
      by (by rewrite Hh1).
    rewrite (set_index_append _ _ _ _ Hdone1).
    intros H.
    specialize (IH (done ++ [x])
      (with_heap c1 (<[n := JSArray (done ++ [x])]> (heap c1))) c').
    rewrite length_app, Nat.add_1_r in IH.
    destruct IH as (items & Hitems & Hall);
      [cbn; lia|apply lookup_insert_eq|exact H|].
    exists (x :: items). split; [by rewrite Hitems, <- app_assoc|].
    constructor; [|done]. split; [by apply is_exception_false|eauto].
Qed.

(** X7: when the conversion of a host list returns a value other than the
    sentinel, that value is the array allocated for the list, and the
    array has exactly one slot per element, in index order, each
    holding what a conversion of that element returned and none
    holding the sentinel. *)
Theorem converted_list_is_complete :
  forall (stack : nat) (env : JNIEnv) (context : JSContext) (value : nat)
         (inst : jinstance) (elements : list jref)
         (v : JSValue) (context' : JSContext),
    env value = JInstance inst ->
    instance_list inst = Some elements ->
    jobject_to_js_value (S stack) env context (Some value) = Ok (v, context') ->
    v <> JS_EXCEPTION ->
    v = JS_Obj (next_id context) /\
    exists items,
      heap context' !! next_id context = Some (JSArray items) /\
      length items = length elements /\
      Forall2 (fun e x => x <> JS_EXCEPTION /\
                          exists c1 c2,
                            jobject_to_js_value stack env c1 e = Ok (x, c2))
        elements items.
Proof.
  intros stack env context value inst elements v context' Henv Hlist.
  rewrite (route_list _ _ _ _ _ _ Henv Hlist).
  unfold java_list_to_js_array, method_list_elements.
  rewrite Henv, Hlist. cbn [default from_option id].
  unfold JS_NewArray, alloc.
  destruct (java_list_loop _ _ _ _ _ _) as [[b c1]| |] eqn:E; cbn [bind];
    [|done..].
  destruct b; intros [= <- <-] Hv; [done|]. split; [done|].
  apply (java_list_loop_complete stack env value (next_id context) elements [])
    in E as (items & Hitems & Hall); [|cbn; lia|apply lookup_insert_eq].
  exists items. split; [exact Hitems|]. split; [|exact Hall].
  symmetry. by eapply Forall2_length.
Qed.

Lemma converted_list_is_complete_witness :
  exists context' items,
    jobject_to_js_value 3 MoreSamples.store MoreSamples.busy_runtime (Some 19)
      = Ok (JS_Obj 1, context') /\
    heap context' !! 1 = Some (JSArray items) /\
    length items = 2.
Proof.
  assert (Hv : JS_Obj 1 <> JS_EXCEPTION) by discriminate.
  eexists _.
  destruct (converted_list_is_complete 2 MoreSamples.store
              MoreSamples.busy_runtime 19
              _ [Some 5; Some 0] _ _ eq_refl eq_refl eq_refl Hv)
    as (_ & items & Hitems & Hlen & _).
  exists items. split; [reflexivity|]. split; [exact Hitems|exact Hlen].
Defined.

(** ** The cycle guard in the other converters *)

Lemma java_set_to_js_set_defined convert env context java_set v context' :
  java_set_to_js_set convert env context java_set = Ok (v, context') ->
  JS_IsUndefined v = false.
Proof.
  unfold java_set_to_js_set, JS_NewArray, alloc.
  destruct (java_set_loop _ _ _ _ _ _) as [[exit c]| |] eqn:E; cbn [bind];
    [|done..].
  unfold new_js_object_from_constructor, JS_CallConstructor, alloc.
  destruct (java_set_loop_exit _ _ _ _ _ _ _ _ E) as [-> | [-> | ->]];
    [by intros [= <- _]|..];
    by destruct (JS_IsUndefined _); intros [= <- _].
Qed.

Lemma java_map_to_js_map_defined convert env context java_map v context' :
  java_map_to_js_map convert env context java_map = Ok (v, context') ->
  JS_IsUndefined v = false.
Proof.
  unfold java_map_to_js_map, JS_NewArray, alloc.
  destruct (java_map_loop _ _ _ _ _ _) as [[exit c]| |] eqn:E; cbn [bind];
    [|done..].
  unfold new_js_object_from_constructor, JS_CallConstructor, alloc.
  destruct (java_map_loop_exit _ _ _ _ _ _ _ _ E) as [-> | ->];
    [by intros [= <- _]|];
    by destruct (JS_IsUndefined _); intros [= <- _].
Qed.

Lemma route_set stack env context value inst members :
  env value = JInstance inst ->
  instance_list inst = None ->
  instance_map inst = None ->
  instance_set inst = Some members ->
  jobject_to_js_value (S stack) env context (Some value) =
    java_set_to_js_set (jobject_to_js_value stack env) env context value.
Proof.
  intros Henv Hlist Hmap Hset. cbn [jobject_to_js_value].
  rewrite convert_by_instance_of_first_match.
  unfold first_match, dispatch_order. cbn [List.find IsInstanceOf].
  rewrite Henv. cbn [instance_of]. rewrite Hlist, Hmap, Hset.
  rewrite !bool_decide_eq_false_2 by (by intros [? ?]).
  rewrite bool_decide_eq_true_2 by eauto. cbn [branch_of].
  destruct (java_set_to_js_set _ _ _ _) as [[v c]| |] eqn:E; cbn [bind];
    [|done..].
  by rewrite (java_set_to_js_set_defined _ _ _ _ _ _ E).
Qed.

Lemma route_map stack env context value inst entries :
  env value = JInstance inst ->
  instance_list inst = None ->
  instance_map inst = Some entries ->
  jobject_to_js_value (S stack) env context (Some value) =
    java_map_to_js_map (jobject_to_js_value stack env) env context value.
Proof.
  intros Henv Hlist Hmap. cbn [jobject_to_js_value].
  rewrite convert_by_instance_of_first_match.
  unfold first_match, dispatch_order. cbn [List.find IsInstanceOf].
  rewrite Henv. cbn [instance_of]. rewrite Hlist, Hmap.
  rewrite !bool_decide_eq_false_2 by (by intros [? ?]).
  rewrite bool_decide_eq_true_2 by eauto. cbn [branch_of].
  destruct (java_map_to_js_map _ _ _ _) as [[v c]| |] eqn:E; cbn [bind];
    [|done..].
  by rewrite (java_map_to_js_map_defined _ _ _ _ _ _ E).
Qed.

Lemma route_object_array stack env context value name elements :
  env value = JObjectArray name elements ->
  object_array_class name = true ->
  jobject_to_js_value (S stack) env context (Some value) =
    let '(js_array, context0) := JS_NewArray context in
    let* (has_exception, context1) :=
      object_array_loop (jobject_to_js_value stack env) value elements 0
        js_array context0 in
    if has_exception : bool then Ok (JS_EXCEPTION, context1)
    else Ok (js_array, context1).
Proof.
  intros Henv Hclass. cbn [jobject_to_js_value].
  unfold convert_by_instance_of, IsInstanceOf. rewrite Henv.
  cbn [instance_of bind JS_IsUndefined negb].
  unfold convert_by_class_name. rewrite Henv.
  cbn [class_name GetObjectArrayElements].
  unfold object_array_class in Hclass.
  repeat (apply andb_prop in Hclass as [Hclass ?]).
  repeat match goal with H : negb _ = true |- _ =>
    apply negb_true_iff in H; rewrite H end.
  rewrite Hclass.
  destruct (String.eqb "kotlin.Unit" name) eqn:E; [|done].
  apply String.eqb_eq in E. by subst name.
Qed.

Lemma java_set_loop_app convert java_set prefix suffix a :
  forall index context context1,
    java_set_loop convert java_set prefix index a context
      = Ok (LoopEnd, context1) ->
    java_set_loop convert java_set (prefix ++ suffix) index a context =
      java_set_loop convert java_set suffix (index + length prefix) a context1.
Proof.
  induction prefix as [|key rest IH]; intros index context context1;
    cbn [java_set_loop app length].
  - intros [= <-]. by rewrite Nat.add_0_r.
  - destruct (IsSameObject _ _); [done|].
    destruct (convert context key) as [[item c]| |]; cbn [bind]; [|done..].
    destruct (JS_IsException _); [done|].
    intros H. rewrite (IH _ _ _ H). f_equal. lia.
Qed.

Lemma java_map_loop_app convert java_map prefix suffix a :
  forall index context context1,
    java_map_loop convert java_map prefix index a context
      = Ok (LoopEnd, context1) ->
    java_map_loop convert java_map (prefix ++ suffix) index a context =
      java_map_loop convert java_map suffix (index + length prefix) a context1.
Proof.
  induction prefix as [|[key value] rest IH]; intros index context context1;
    cbn [java_map_loop app length].
  - intros [= <-]. by rewrite Nat.add_0_r.
  - destruct (IsSameObject _ key); [done|].
    destruct (convert context key) as [[js_key c1]| |]; cbn [bind]; [|done..].
    destruct (JS_IsException _); [done|].
    destruct (IsSameObject _ value); [done|].
    destruct (convert c1 value) as [[js_value c2]| |]; cbn [bind]; [|done..].
    destruct (JS_IsException _); [done|].
    destruct (JS_NewArray c2) as [js_entry c3].
    intros H. rewrite (IH _ _ _ H). f_equal. lia.
Qed.

Lemma object_array_loop_app convert value prefix suffix a :
  forall i context context1,
    object_array_loop convert value prefix i a context = Ok (false, context1) ->
    object_array_loop convert value (prefix ++ suffix) i a context =
      object_array_loop convert value suffix (i + length prefix) a context1.
Proof.
  induction prefix as [|element rest IH]; intros i context context1;
    cbn [object_array_loop app length].
  - intros [= <-]. by rewrite Nat.add_0_r.
  - destruct (IsSameObject _ _); [done|].
    destruct (convert context element) as [[js_element c]| |]; cbn [bind];
      [|done..].
    intros H. rewrite (IH _ _ _ H). f_equal. lia.
Qed.

(** X8: for every host Set that holds itself, when the members before the
    first such member convert successfully the conversion raises
    CircularReferenceError, releases the intermediate array and returns
    the sentinel at once: no Set is constructed, whether or not the
    runtime has a Set constructor. *)
Theorem set_containing_itself :
  forall (stack : nat) (env : JNIEnv) (context : JSContext) (value : nat)
         (inst : jinstance) (prefix rest : list jref) (context1 : JSContext),
    env value = JInstance inst ->
    instance_list inst = None ->
    instance_map inst = None ->
    instance_set inst = Some (prefix ++ Some value :: rest) ->
    java_set_loop (jobject_to_js_value stack env) value prefix 0
      (JS_NewArray context).1 (JS_NewArray context).2 = Ok (LoopEnd, context1) ->
    jobject_to_js_value (S stack) env context (Some value) =
      Ok (JS_EXCEPTION,
          JS_FreeValue (throw_circular_ref_error context1)
            (JS_NewArray context).1) /\
    raises (jobject_to_js_value (S stack) env context (Some value))
      CircularReferenceError /\
    released
      (JS_FreeValue (throw_circular_ref_error context1) (JS_NewArray context).1)
      (JS_NewArray context).1.
Proof.
  intros stack env context value inst prefix rest context1
    Henv Hlist Hmap Hset Hprefix.
  assert (Hr : jobject_to_js_value (S stack) env context (Some value) =
      Ok (JS_EXCEPTION,
          JS_FreeValue (throw_circular_ref_error context1)
            (JS_NewArray context).1)).
  { rewrite (route_set _ _ _ _ _ _ Henv Hlist Hmap Hset).
    unfold java_set_to_js_set, method_set_iterator.
    rewrite Henv, Hset. cbn [default from_option id].
    destruct (JS_NewArray context) as [js_array context0]. cbn [fst snd] in *.
    rewrite (java_set_loop_app _ _ _ _ _ _ _ _ Hprefix).
    cbn [java_set_loop]. unfold IsSameObject.
    by rewrite bool_decide_eq_true_2. }
  split; [exact Hr|]. rewrite Hr. split.
  - eexists. split; [reflexivity|]. unfold JS_NewArray, alloc. reflexivity.
  - apply released_free.
Qed.

Lemma set_containing_itself_witness :
  raises (jobject_to_js_value 2 MoreSamples.store Samples.bare_runtime (Some 14))
    CircularReferenceError.
Proof.
  apply (set_containing_itself 1 MoreSamples.store Samples.bare_runtime 14
           _ [Some 0] [] _ eq_refl eq_refl eq_refl eq_refl eq_refl).
Defined.

(** X9: for every host Map with an entry whose key is the map itself,
    when the entries before it convert successfully the conversion
    raises CircularReferenceError, releases the intermediate array of
    pairs and returns the sentinel at once, without constructing a
    Map. *)
Theorem map_with_itself_as_key :
  forall (stack : nat) (env : JNIEnv) (context : JSContext) (value : nat)
         (inst : jinstance) (prefix rest : list (jref * jref)) (val : jref)
         (context1 : JSContext),
    env value = JInstance inst ->
    instance_list inst = None ->
    instance_map inst = Some (prefix ++ (Some value, val) :: rest) ->
    java_map_loop (jobject_to_js_value stack env) value prefix 0
      (JS_NewArray context).1 (JS_NewArray context).2 = Ok (LoopEnd, context1) ->
    jobject_to_js_value (S stack) env context (Some value) =
      Ok (JS_EXCEPTION,
          JS_FreeValue (throw_circular_ref_error context1)
            (JS_NewArray context).1) /\
    raises (jobject_to_js_value (S stack) env context (Some value))
      CircularReferenceError /\
    released
      (JS_FreeValue (throw_circular_ref_error context1) (JS_NewArray context).1)
      (JS_NewArray context).1.
Proof.
  intros stack env context value inst prefix rest val context1
    Henv Hlist Hmap Hprefix.
  assert (Hr : jobject_to_js_value (S stack) env context (Some value) =
      Ok (JS_EXCEPTION,
          JS_FreeValue (throw_circular_ref_error context1)
            (JS_NewArray context).1)).
  { rewrite (route_map _ _ _ _ _ _ Henv Hlist Hmap).
    unfold java_map_to_js_map, method_map_entry_set.
    rewrite Henv, Hmap. cbn [default from_option id].
    destruct (JS_NewArray context) as [js_array context0]. cbn [fst snd] in *.
    rewrite (java_map_loop_app _ _ _ _ _ _ _ _ Hprefix).
    cbn [java_map_loop]. unfold IsSameObject.
    by rewrite bool_decide_eq_true_2. }
  split; [exact Hr|]. rewrite Hr. split.
  - eexists. split; [reflexivity|]. unfold JS_NewArray, alloc. reflexivity.
  - apply released_free.
Qed.

Lemma map_with_itself_as_key_witness :
  raises (jobject_to_js_value 2 MoreSamples.store Samples.runtime (Some 15))
    CircularReferenceError.
Proof.
  apply (map_with_itself_as_key 1 MoreSamples.store Samples.runtime 15
           _ [(Some 0, Some 2)] [] (Some 3) _ eq_refl eq_refl eq_refl eq_refl).
Defined.

(** X10: for every host Map with an entry whose value is the map itself,
    when the entries before it convert successfully and the key of that
    entry is not the map and converts successfully, the conversion
    raises CircularReferenceError, releases the intermediate array of
    pairs and returns the sentinel at once, without constructing a
    Map. *)
Theorem map_with_itself_as_value :
  forall (stack : nat) (env : JNIEnv) (context : JSContext) (value : nat)
         (inst : jinstance) (prefix rest : list (jref * jref)) (key : jref)
         (js_key : JSValue) (context1 context2 : JSContext),
    env value = JInstance inst ->
    instance_list inst = None ->
    instance_map inst = Some (prefix ++ (key, Some value) :: rest) ->
    java_map_loop (jobject_to_js_value stack env) value prefix 0
      (JS_NewArray context).1 (JS_NewArray context).2 = Ok (LoopEnd, context1) ->
    key <> Some value ->
    jobject_to_js_value stack env context1 key = Ok (js_key, context2) ->
    js_key <> JS_EXCEPTION ->
    jobject_to_js_value (S stack) env context (Some value) =
      Ok (JS_EXCEPTION,
          JS_FreeValue (throw_circular_ref_error context2)
            (JS_NewArray context).1) /\
    raises (jobject_to_js_value (S stack) env context (Some value))
      CircularReferenceError /\
    released
      (JS_FreeValue (throw_circular_ref_error context2) (JS_NewArray context).1)
      (JS_NewArray context).1.
Proof.
  intros stack env context value inst prefix rest key js_key context1 context2
    Henv Hlist Hmap Hprefix Hkey Hconv Hjs.
  assert (Hr : jobject_to_js_value (S stack) env context (Some value) =
      Ok (JS_EXCEPTION,
          JS_FreeValue (throw_circular_ref_error context2)
            (JS_NewArray context).1)).
  { rewrite (route_map _ _ _ _ _ _ Henv Hlist Hmap).
    unfold java_map_to_js_map, method_map_entry_set.
    rewrite Henv, Hmap. cbn [default from_option id].
    destruct (JS_NewArray context) as [js_array context0]. cbn [fst snd] in *.
    rewrite (java_map_loop_app _ _ _ _ _ _ _ _ Hprefix).
    cbn [java_map_loop]. unfold IsSameObject.
    rewrite bool_decide_eq_false_2 by congruence.
    rewrite Hconv. cbn [bind].
    apply is_exception_false in Hjs. rewrite Hjs.
    by rewrite bool_decide_eq_true_2. }
  split; [exact Hr|]. rewrite Hr. split.
  - eexists. split; [reflexivity|]. unfold JS_NewArray, alloc. reflexivity.
  - apply released_free.
Qed.

Lemma map_with_itself_as_value_witness :
  raises (jobject_to_js_value 2 MoreSamples.store Samples.runtime (Some 16))
    CircularReferenceError.
Proof.
  assert (Hkey : Some 1 <> Some 16) by discriminate.
  assert (Hjs : JS_String "b" <> JS_EXCEPTION) by discriminate.
  apply (map_with_itself_as_value 1 MoreSamples.store Samples.runtime 16
           _ [(Some 0, Some 2)] [] (Some 1) (JS_String "b") _ _
           eq_refl eq_refl eq_refl eq_refl Hkey eq_refl Hjs).
Defined.

(** X11: for every string-keyed host object with an entry whose value is
    the object itself, when the entries before it are processed
    successfully and the key of that entry is a string, the conversion
    raises CircularReferenceError, releases the destination object and
    returns the sentinel at once. *)
Theorem object_with_itself_as_value :
  forall (stack : nat) (env : JNIEnv) (context : JSContext) (value : nat)
         (prefix rest : list (jref * jref)) (key : jref) (str_key : string)
         (context1 : JSContext),
    env value = JJsObject (prefix ++ (key, Some value) :: rest) ->
    java_object_loop (jobject_to_js_value stack env) env value prefix
      (JS_NewObject context).1 (JS_NewObject context).2
      = Ok (LoopEnd, context1) ->
    GetStringUTFChars env key = Some str_key ->
    jobject_to_js_value (S stack) env context (Some value) =
      Ok (JS_EXCEPTION,
          JS_FreeValue (throw_circular_ref_error context1)
            (JS_NewObject context).1) /\
    raises (jobject_to_js_value (S stack) env context (Some value))
      CircularReferenceError /\
    released
      (JS_FreeValue (throw_circular_ref_error context1) (JS_NewObject context).1)
      (JS_NewObject context).1.
Proof.
  intros stack env context value prefix rest key str_key context1
    Henv Hprefix Hstr.
  assert (Hkey : key <> Some value).
  { intros ->. cbn in Hstr. by rewrite Henv in Hstr. }
  assert (Hinst : IsInstanceOf env key cls_string = true).
  { unfold GetStringUTFChars in Hstr. destruct key as [k|]; [|done].
    cbn [IsInstanceOf]. by destruct (env k). }
  assert (Hr : jobject_to_js_value (S stack) env context (Some value) =
      Ok (JS_EXCEPTION,
          JS_FreeValue (throw_circular_ref_error context1)
            (JS_NewObject context).1)).
  { rewrite (route_js_object _ _ _ _ (first_match_js_object _ _ _ Henv)).
    unfold java_map_to_js_object, method_map_entry_set. rewrite Henv.
    destruct (JS_NewObject context) as [js_object context0].
    cbn [fst snd] in *.
    rewrite (java_object_loop_app _ _ _ _ _ _ _ _ Hprefix).
    cbn [java_object_loop]. unfold IsSameObject.
    rewrite bool_decide_eq_false_2 by congruence.
    rewrite Hinst, Hstr. cbn [negb].
    by rewrite bool_decide_eq_true_2. }
  split; [exact Hr|]. rewrite Hr. split.
  - eexists. split; [reflexivity|]. unfold JS_NewObject, alloc. reflexivity.
  - apply released_free.
Qed.

Lemma object_with_itself_as_value_witness :
  raises (jobject_to_js_value 2 MoreSamples.store Samples.runtime (Some 17))
    CircularReferenceError.
Proof.
  apply (object_with_itself_as_value 1 MoreSamples.store Samples.runtime 17
           [(Some 0, Some 2)] [] (Some 1) "b" _ eq_refl eq_refl eq_refl).
Defined.

(** X12: for every host object array that holds itself, when the
    conversions of the elements before the first such element return
    (whatever they return), the conversion releases the destination
    array, raises CircularReferenceError and returns the sentinel. *)
Theorem object_array_containing_itself :
  forall (stack : nat) (env : JNIEnv) (context : JSContext) (value : nat)
         (name : string) (prefix rest : list jref) (context1 : JSContext),
    env value = JObjectArray name (prefix ++ Some value :: rest) ->
    object_array_class name = true ->
    object_array_loop (jobject_to_js_value stack env) value prefix 0
      (JS_NewArray context).1 (JS_NewArray context).2 = Ok (false, context1) ->
    jobject_to_js_value (S stack) env context (Some value) =
      Ok (JS_EXCEPTION,
          throw_circular_ref_error
            (JS_FreeValue context1 (JS_NewArray context).1)) /\
    raises (jobject_to_js_value (S stack) env context (Some value))
      CircularReferenceError /\
    released
      (throw_circular_ref_error (JS_FreeValue context1 (JS_NewArray context).1))
      (JS_NewArray context).1.
Proof.
  intros stack env context value name prefix rest context1 Henv Hclass Hprefix.
  assert (Hr : jobject_to_js_value (S stack) env context (Some value) =
      Ok (JS_EXCEPTION,
          throw_circular_ref_error
            (JS_FreeValue context1 (JS_NewArray context).1))).
  { rewrite (route_object_array _ _ _ _ _ _ Henv Hclass).
    destruct (JS_NewArray context) as [js_array context0]. cbn [fst snd] in *.
    rewrite (object_array_loop_app _ _ _ _ _ _ _ _ Hprefix).
    cbn [object_array_loop]. unfold IsSameObject.
    by rewrite bool_decide_eq_true_2. }
  split; [exact Hr|]. rewrite Hr. split.
  - eexists. split; [reflexivity|]. unfold JS_NewArray, alloc. reflexivity.
  - unfold JS_NewArray, alloc. cbn. apply lookup_delete_eq.
Qed.

Lemma object_array_containing_itself_witness :
  raises (jobject_to_js_value 2 MoreSamples.store Samples.runtime (Some 18))
    CircularReferenceError.
Proof.
  apply (object_array_containing_itself 1 MoreSamples.store Samples.runtime 18
           _ [Some 20] [] _ eq_refl eq_refl eq_refl).
Defined.

(** ** Indirect cycles *)

(** X13: the cycle guard only compares an element with its immediate
    container.  Two distinct host lists that hold each other as first
    element are not detected: their conversion recurses until the call
    stack is exhausted, whatever room the stack has, and never
    returns. *)
Theorem mutual_lists_exhaust_stack :
  forall (env : JNIEnv) (a b : nat) (ia ib : jinstance) (ra rb : list jref),
    a <> b ->
    env a = JInstance ia -> instance_list ia = Some (Some b :: ra) ->
    env b = JInstance ib -> instance_list ib = Some (Some a :: rb) ->
    forall (stack : nat) (context : JSContext),
      jobject_to_js_value stack env context (Some a) = StackExhausted.
Proof.
  intros env a b ia ib ra rb Hab Ha Hla Hb Hlb stack.
  assert (H : forall context,
    jobject_to_js_value stack env context (Some a) = StackExhausted /\
    jobject_to_js_value stack env context (Some b) = StackExhausted);
    [|intros context; apply H].
  induction stack as [|stack IH]; intros context; [done|].
  split.
  - rewrite (route_list _ _ _ _ _ _ Ha Hla).
    unfold java_list_to_js_array, method_list_elements.
    rewrite Ha, Hla. cbn [default from_option id].
    destruct (JS_NewArray context) as [js_array context0].
    cbn [java_list_loop]. unfold IsSameObject.
    rewrite bool_decide_eq_false_2 by congruence.
    by rewrite (proj2 (IH context0)).
  - rewrite (route_list _ _ _ _ _ _ Hb Hlb).
    unfold java_list_to_js_array, method_list_elements.
    rewrite Hb, Hlb. cbn [default from_option id].
    destruct (JS_NewArray context) as [js_array context0].
    cbn [java_list_loop]. unfold IsSameObject.
    rewrite bool_decide_eq_false_2 by congruence.
    by rewrite (proj1 (IH context0)).
Qed.

Lemma mutual_lists_exhaust_stack_witness :
  jobject_to_js_value 50 MoreSamples.store Samples.runtime (Some 21)
    = StackExhausted.
Proof.
  assert (Hne : 21 <> 22) by discriminate.
  apply (mutual_lists_exhaust_stack MoreSamples.store 21 22 _ _ [] []
           Hne eq_refl eq_refl eq_refl eq_refl 50 Samples.runtime).
Defined.

(** ** String-keyed objects, sets and maps of scalars *)

Lemma set_property_plain c id props p v :
  heap c !! id = Some (JSPlainObject props) ->
  JS_SetPropertyStr c (JS_Obj id) p v =
    with_heap c (<[id := JSPlainObject (<[p := v]> props)]> (heap c)).
Proof. intros H. unfold JS_SetPropertyStr. by rewrite H. Qed.

Lemma java_object_loop_scalars stack env java_map id entries :
  env java_map = JJsObject entries ->
  forall iterator pairs,
    Forall2 (scalar_entry env) iterator pairs ->
    forall props context,
      heap context !! id = Some (JSPlainObject props) ->
      java_object_loop (jobject_to_js_value (S stack) env) env java_map
        iterator (JS_Obj id) context
      = Ok (LoopEnd,
            with_heap context
              (<[id := JSPlainObject (set_properties props pairs)]>
                 (heap context))).
Proof.
  intros Henv iterator pairs Hall.
  induction Hall as [|[key value] [s x] iterator pairs [Hk Hv] Hall IH];
    intros props context Hid; cbn [java_object_loop set_properties foldl].
  - by rewrite insert_id, with_heap_id.
  - cbn [fst snd] in Hk, Hv.
    assert (Hkey : key <> Some java_map).
    { intros ->. cbn in Hk. by rewrite Henv in Hk. }
    assert (Hvalue : value <> Some java_map).
    { intros ->. cbn in Hv. by rewrite Henv in Hv. }
    assert (Hinst : IsInstanceOf env key cls_string = true).
    { unfold GetStringUTFChars in Hk. destruct key as [k|]; [|done].
      cbn [IsInstanceOf]. by destruct (env k). }
    unfold IsSameObject. rewrite bool_decide_eq_false_2 by congruence.
    rewrite Hinst, Hk. cbn [negb].
    rewrite bool_decide_eq_false_2 by congruence.
    rewrite (convert_scalar _ _ _ _ _ Hv). cbn [bind].
    rewrite (scalar_not_sentinel _ _ _ Hv).
    unfold JS_SetProperty, JS_NewAtom.
    rewrite (set_property_plain _ _ _ _ _ Hid).
    rewrite (IH (<[s := x]> props)) by apply lookup_insert_eq.
    cbn [with_heap heap next_id exception globals fst snd].
    by rewrite insert_insert_eq.
Qed.

Lemma set_properties_list_to_map pairs :
  forall props,
    set_properties props pairs = list_to_map (reverse pairs) ∪ props.
Proof.
  unfold set_properties.
  induction pairs as [|[s x] pairs IH]; intros props; cbn [foldl fst snd].
  - by rewrite reverse_nil, list_to_map_nil, (left_id_L ∅ (∪)).
  - rewrite IH, reverse_cons, list_to_map_app.
    cbn [list_to_map foldr fst snd uncurry].
    rewrite insert_empty, <- (assoc_L (∪)).
    by rewrite <- insert_union_singleton_l.
Qed.

(** X14: a string-keyed host object whose keys are strings and whose
    values are NULL, boxed primitives or strings converts to a fresh
    plain object on which each entry has been set in iteration order;
    nothing else in the runtime changes and no exception is raised.
    When the keys are pairwise distinct, the destination object has the
    property [k] with value [x] exactly when the host object has the
    entry for [k] whose value converts to [x]. *)
Theorem object_of_scalars_to_object :
  forall (stack : nat) (env : JNIEnv) (context : JSContext) (value : nat)
         (entries : list (jref * jref)) (pairs : list (string * JSValue)),
    env value = JJsObject entries ->
    Forall2 (scalar_entry env) entries pairs ->
    jobject_to_js_value (S (S stack)) env context (Some value) =
      Ok (JS_Obj (next_id context),
          mk_JSContext
            (<[next_id context := JSPlainObject (set_properties ∅ pairs)]>
               (heap context))
            (S (next_id context)) (exception context) (globals context)) /\
    (NoDup pairs.*1 ->
     forall k x, set_properties ∅ pairs !! k = Some x <-> (k, x) ∈ pairs).
Proof.
  intros stack env context value entries pairs Henv Hall. split.
  - rewrite (route_js_object _ _ _ _ (first_match_js_object _ _ _ Henv)).
    unfold java_map_to_js_object, method_map_entry_set. rewrite Henv.
    unfold JS_NewObject, alloc.
    rewrite (java_object_loop_scalars stack env value (next_id context)
               entries Henv entries pairs Hall ∅)
      by apply lookup_insert_eq.
    cbn [bind with_heap heap next_id exception globals].
    by rewrite insert_insert_eq.
  - intros Hnodup k x.
    rewrite set_properties_list_to_map, (right_id_L ∅ (∪)).
    rewrite <- elem_of_list_to_map
      by (by rewrite fmap_reverse, reverse_Permutation).
    apply elem_of_reverse.
Qed.

Lemma object_of_scalars_to_object_witness :
  jobject_to_js_value 2 MoreSamples.store Samples.runtime (Some 8) =
    Ok (JS_Obj 0,
        mk_JSContext
          (<[0 := JSPlainObject
                    (set_properties ∅
                       [("a", JS_Float64 (double_of_jint 1));
                        ("b", JS_Bool true)])]> ∅)
          1 None (globals Samples.runtime)).
Proof.
  apply (object_of_scalars_to_object 0 MoreSamples.store Samples.runtime 8
           _ [("a", JS_Float64 (double_of_jint 1)); ("b", JS_Bool true)]
           eq_refl).
  repeat constructor.
Defined.

Lemma java_set_loop_scalars stack env java_set id :
  scalar_value env (Some java_set) = None ->
  forall iterator items,
    Forall2 (fun e v => scalar_value env e = Some v) iterator items ->
    forall done context,
      heap context !! id = Some (JSArray done) ->
      java_set_loop (jobject_to_js_value (S stack) env) java_set iterator
        (length done) (JS_Obj id) context
      = Ok (LoopEnd,
            with_heap context (<[id := JSArray (done ++ items)]> (heap context))).
Proof.
  intros Hself iterator items Hall.
  induction Hall as [|e v iterator items He Hall IH]; intros done context Hid;
    cbn [java_set_loop].
  - by rewrite app_nil_r, insert_id, with_heap_id.
  - unfold IsSameObject. rewrite bool_decide_eq_false_2 by congruence.
    rewrite (convert_scalar _ _ _ _ _ He). cbn [bind].
    rewrite (scalar_not_sentinel _ _ _ He).
    rewrite (set_index_append _ _ _ _ Hid).
    specialize (IH (done ++ [v])
      (with_heap context (<[id := JSArray (done ++ [v])]> (heap context)))).
    rewrite length_app, Nat.add_1_r in IH.
    rewrite IH by apply lookup_insert_eq.
    cbn [with_heap heap next_id exception globals].
    by rewrite insert_insert_eq, <- app_assoc.
Qed.

(** X15: in a runtime that has a Set constructor, a host Set whose members
    are NULL, boxed primitives or strings converts to the instance the
    constructor builds from the converted members in iteration order;
    the intermediate array has been released when the conversion
    returns, nothing else in the runtime changes and no exception is
    raised. *)
Theorem set_of_scalars_to_set :
  forall (stack : nat) (env : JNIEnv) (context : JSContext) (value : nat)
         (inst : jinstance) (members : list jref) (items : list JSValue)
         (ctor : JSValue),
    env value = JInstance inst ->
    instance_list inst = None ->
    instance_map inst = None ->
    instance_set inst = Some members ->
    Forall2 (fun e v => scalar_value env e = Some v) members items ->
    globals context !! "Set" = Some ctor ->
    JS_IsUndefined ctor = false ->
    let n := next_id context in
    jobject_to_js_value (S (S stack)) env context (Some value) =
      Ok (JS_Obj (S n),
          mk_JSContext
            (delete n
               (<[S n := JSInstance ctor items]>
                  (<[n := JSArray items]> (heap context))))
            (S (S n)) (exception context) (globals context)) /\
    (delete n (<[S n := JSInstance ctor items]>
                 (<[n := JSArray items]> (heap context))) : gmap nat JSObject)
      !! S n = Some (JSInstance ctor items) /\
    (delete n (<[S n := JSInstance ctor items]>
                 (<[n := JSArray items]> (heap context))) : gmap nat JSObject)
      !! n = None.
Proof.
  intros stack env context value inst members items ctor
    Henv Hlist Hmap Hset Hall Hctor Hdef n. subst n.
  split; [|split].
  - rewrite (route_set _ _ _ _ _ _ Henv Hlist Hmap Hset).
    unfold java_set_to_js_set, method_set_iterator.
    rewrite Henv, Hset. cbn [default from_option id].
    unfold JS_NewArray, alloc.
    assert (Hself : scalar_value env (Some value) = None)
      by (cbn; by rewrite Henv).
    rewrite (java_set_loop_scalars stack env value (next_id context) Hself
               members items Hall [])
      by apply lookup_insert_eq.
    cbn [bind app with_heap heap next_id exception globals].
    unfold new_js_object_from_constructor, JS_GetPropertyStr_global.
    cbn [globals with_heap]. rewrite Hctor. cbn [default from_option id].
    rewrite Hdef. unfold JS_CallConstructor, alloc.
    cbn [heap next_id exception globals with_heap JS_FreeValue].
    rewrite insert_insert_eq, lookup_insert_eq. reflexivity.
  - rewrite lookup_delete_ne by lia. apply lookup_insert_eq.
  - apply lookup_delete_eq.
Qed.

Lemma set_of_scalars_to_set_witness :
  exists context',
    jobject_to_js_value 2 MoreSamples.store Samples.runtime (Some 6)
      = Ok (JS_Obj 1, context') /\
    heap context' !! 1 =
      Some (JSInstance (JS_Function "Set") [JS_String "a"; JS_String "b"]) /\
    heap context' !! 0 = None.
Proof.
  assert (Hall : Forall2 (fun e v => scalar_value MoreSamples.store e = Some v)
                   [Some 0; Some 1] [JS_String "a"; JS_String "b"])
    by (repeat constructor).
  destruct (set_of_scalars_to_set 0 MoreSamples.store Samples.runtime 6
              _ _ _ (JS_Function "Set") eq_refl eq_refl eq_refl eq_refl Hall
              eq_refl eq_refl) as (Hr & Hi & Ha).
  eexists. split; [exact Hr|]. split; [exact Hi|exact Ha].
Defined.

Lemma java_map_loop_scalars stack env java_map n :
  scalar_value env (Some java_map) = None ->
  forall iterator pairs,
    Forall2 (scalar_pair env) iterator pairs ->
    forall done context,
      next_id context = S n + length done ->
      heap context !! n = Some (JSArray done) ->
      exists context',
        java_map_loop (jobject_to_js_value (S stack) env) java_map iterator
          (length done) (JS_Obj n) context = Ok (LoopEnd, context') /\
        next_id context' = S n + length done + length pairs /\
        heap context' !! n =
          Some (JSArray
                  (done ++ (JS_Obj <$> seq (S n + length done) (length pairs)))) /\
        (forall j pair,
            pairs !! j = Some pair ->
            heap context' !! (S n + length done + j)
              = Some (JSArray [pair.1; pair.2])) /\
        (forall id, id < S n + length done -> id <> n ->
                    heap context' !! id = heap context !! id) /\
        exception context' = exception context /\
        globals context' = globals context.
Proof.
  intros Hself iterator pairs Hall.
  induction Hall as [|[key value] [k v] iterator pairs [Hk Hv] Hall IH];
    intros done context Hnext Hdone; cbn [java_map_loop length].
  - eexists. split; [reflexivity|]. rewrite app_nil_r, Nat.add_0_r.
    repeat split; done.
  - cbn [fst snd] in Hk, Hv.
    unfold IsSameObject. rewrite bool_decide_eq_false_2 by congruence.
    rewrite (convert_scalar _ _ _ _ _ Hk). cbn [bind].
    rewrite (scalar_not_sentinel _ _ _ Hk).
    rewrite bool_decide_eq_false_2 by congruence.
    rewrite (convert_scalar _ _ _ _ _ Hv). cbn [bind].
    rewrite (scalar_not_sentinel _ _ _ Hv).
    unfold JS_NewArray, alloc.
    set (e := next_id context).
    set (c0 := mk_JSContext (<[e := JSArray []]> (heap context)) (S e)
                 (exception context) (globals context)).
    assert (H0 : heap c0 !! e = Some (JSArray [])) by apply lookup_insert_eq.
    pose proof (set_index_append c0 e [] k H0) as E0.
    cbn [length app] in E0. rewrite E0. clear E0.
    set (c1 := with_heap c0 _).
    assert (H1 : heap c1 !! e = Some (JSArray [k])) by apply lookup_insert_eq.
    pose proof (set_index_append c1 e [k] v H1) as E1.
    cbn [length app] in E1. rewrite E1. clear E1.
    set (c2 := with_heap c1 _).
    assert (Hne : n <> e) by (subst e; lia).
    assert (H2 : heap c2 !! n = Some (JSArray done)).
    { subst c2 c1 c0. cbn [heap with_heap].
      by rewrite !lookup_insert_ne by done. }
    rewrite (set_index_append c2 n done (JS_Obj e) H2).
    set (c3 := with_heap c2 _).
    destruct (IH (done ++ [JS_Obj e]) c3) as
      (c' & Hloop & Hn' & Harr & Hpairs & Hframe & Hex & Hgl).
    { rewrite length_app. subst c3 c2 c1 c0 e. cbn. lia. }
    { apply lookup_insert_eq. }
    rewrite length_app, Nat.add_1_r in Hloop, Hn', Harr, Hpairs, Hframe.
    exists c'. split; [exact Hloop|].
    split; [lia|].
    split.
    { rewrite Harr, <- app_assoc. do 3 f_equal. cbn [seq fmap list_fmap app].
      f_equal; [subst e; f_equal; lia|]. do 2 f_equal. lia. }
    split.
    { intros [|j] pair Hj; cbn in Hj.
      - injection Hj as <-. rewrite Nat.add_0_r.
        rewrite Hframe by lia. subst c3 c2. cbn [heap with_heap fst snd].
        rewrite lookup_insert_ne by lia.
        replace (S n + length done) with e by (subst e; lia).
        apply lookup_insert_eq.
      - rewrite <- (Hpairs j pair Hj). f_equal. lia. }
    split.
    { intros id Hid Hidn. rewrite Hframe by lia.
      subst c3 c2 c1 c0. cbn [heap with_heap].
      rewrite !lookup_insert_ne by lia. done. }
    split; [by rewrite Hex|by rewrite Hgl].
Qed.

(** X16: in a runtime that has a Map constructor, a host Map whose keys and
    values are NULL, boxed primitives or strings converts to the
    instance the constructor builds from an array of fresh two-element
    arrays, the [j]-th of which holds the converted key and value of
    the [j]-th entry in iteration order; the intermediate array has
    been released when the conversion returns, and no exception is
    raised. *)
Theorem map_of_scalars_to_map :
  forall (stack : nat) (env : JNIEnv) (context : JSContext) (value : nat)
         (inst : jinstance) (entries : list (jref * jref))
         (pairs : list (JSValue * JSValue)) (ctor : JSValue),
    env value = JInstance inst ->
    instance_list inst = None ->
    instance_map inst = Some entries ->
    Forall2 (scalar_pair env) entries pairs ->
    globals context !! "Map" = Some ctor ->
    JS_IsUndefined ctor = false ->
    let n := next_id context in
    exists context',
      jobject_to_js_value (S (S stack)) env context (Some value)
        = Ok (JS_Obj (S n + length pairs), context') /\
      heap context' !! (S n + length pairs) =
        Some (JSInstance ctor (JS_Obj <$> seq (S n) (length pairs))) /\
      (forall j pair,
          pairs !! j = Some pair ->
          heap context' !! (S n + j) = Some (JSArray [pair.1; pair.2])) /\
      heap context' !! n = None /\
      exception context' = exception context.
Proof.
  intros stack env context value inst entries pairs ctor
    Henv Hlist Hmap Hall Hctor Hdef n. subst n.
  rewrite (route_map _ _ _ _ _ _ Henv Hlist Hmap).
  unfold java_map_to_js_map, method_map_entry_set.
  rewrite Henv, Hmap. cbn [default from_option id].
  unfold JS_NewArray, alloc.
  assert (Hself : scalar_value env (Some value) = None)
    by (cbn; by rewrite Henv).
  set (n := next_id context).
  set (c0 := mk_JSContext (<[n := JSArray []]> (heap context)) (S n)
               (exception context) (globals context)).
  destruct (java_map_loop_scalars stack env value n Hself entries pairs Hall
              [] c0) as (c1 & Hloop & Hn1 & Harr & Hpairs & Hframe & Hex & Hgl).
  { subst c0. cbn. lia. }
  { apply lookup_insert_eq. }
  cbn [length app] in Hloop, Hn1, Harr, Hpairs, Hframe.
  rewrite Nat.add_0_r in Hn1, Harr, Hpairs, Hframe.
  rewrite Hloop. cbn [bind].
  unfold new_js_object_from_constructor, JS_GetPropertyStr_global.
  rewrite Hgl. cbn [globals c0]. rewrite Hctor. cbn [default from_option id].
  rewrite Hdef. unfold JS_CallConstructor, alloc. rewrite Harr, Hn1.
  eexists. split; [reflexivity|].
  cbn [heap with_heap exception JS_FreeValue].
  split; [rewrite lookup_delete_ne by lia; apply lookup_insert_eq|].
  split.
  { intros j pair Hj.
    pose proof (lookup_lt_Some _ _ _ Hj) as Hlt.
    rewrite lookup_delete_ne by lia. rewrite lookup_insert_ne by lia.
    by apply Hpairs. }
  split; [apply lookup_delete_eq|].
  by rewrite Hex.
Qed.

Lemma map_of_scalars_to_map_witness :
  exists context',
    jobject_to_js_value 2 MoreSamples.store Samples.runtime (Some 7)
      = Ok (JS_Obj 3, context') /\
    heap context' !! 3 = Some (JSInstance (JS_Function "Map") [JS_Obj 1; JS_Obj 2]) /\
    heap context' !! 1 = Some (JSArray [JS_String "a"; JS_Float64 (double_of_jint 1)]) /\
    heap context' !! 2 = Some (JSArray [JS_String "b"; JS_Bool true]) /\
    heap context' !! 0 = None.
Proof.
  assert (Hall : Forall2 (scalar_pair MoreSamples.store)
                   [(Some 0, Some 2); (Some 1, Some 3)]
                   [(JS_String "a", JS_Float64 (double_of_jint 1));
                    (JS_String "b", JS_Bool true)])
    by (repeat constructor).
  destruct (map_of_scalars_to_map 0 MoreSamples.store Samples.runtime 7
              _ _ _ (JS_Function "Map") eq_refl eq_refl eq_refl Hall
              eq_refl eq_refl) as (context' & Hr & Hi & Hp & Ha & _).
  exists context'. split; [exact Hr|]. split; [exact Hi|].
  split; [exact (Hp 0 _ eq_refl)|]. split; [exact (Hp 1 _ eq_refl)|exact Ha].
Defined.

(** ** Objects and object arrays that convert *)

Lemma java_object_loop_complete stack env java_map n :
  forall iterator props c c',
    n < next_id c ->
    heap c !! n = Some (JSPlainObject props) ->
    java_object_loop (jobject_to_js_value stack env) env java_map iterator
      (JS_Obj n) c = Ok (LoopEnd, c') ->
    exists pairs,
      heap c' !! n = Some (JSPlainObject (set_properties props pairs)) /\
      Forall2 (fun (entry : jref * jref) (pair : string * JSValue) =>
                 GetStringUTFChars env entry.1 = Some pair.1 /\
                 pair.2 <> JS_EXCEPTION /\
                 exists c1 c2,
                   jobject_to_js_value stack env c1 entry.2 = Ok (pair.2, c2))
        iterator pairs.
Proof.
  induction iterator as [|[key value] rest IH]; intros props c c' Hn Hprops;
    cbn [java_object_loop].
  - intros [= <-]. by exists [].
  - destruct (IsSameObject _ key); [done|].
    destruct (negb _); [done|].
    destruct (GetStringUTFChars env key) as [str_key|] eqn:Hk; [|done].
    destruct (IsSameObject _ value); [done|].
    destruct (jobject_to_js_value stack env c value) as [[x c1]| |] eqn:E;
      cbn [bind]; [|done..].
    destruct (JS_IsException x) eqn:Ex; [done|].
    pose proof (frame_jobject_to_js_value env stack _ _ _ _ E) as [[Hn1 Hh1] _].
    assert (Hprops1 : heap c1 !! n = Some (JSPlainObject props))
      by (by rewrite Hh1).
    unfold JS_SetProperty, JS_NewAtom.
    rewrite (set_property_plain _ _ _ _ _ Hprops1).
    intros H.
    destruct (IH (<[str_key := x]> props)
                (with_heap c1 (<[n := JSPlainObject (<[str_key := x]> props)]>
                                 (heap c1))) c')
      as (pairs & Hpairs & Hall); [cbn; lia|apply lookup_insert_eq|exact H|].
    exists ((str_key, x) :: pairs). split; [exact Hpairs|].
    constructor; [|done]. cbn [fst snd].
    split; [done|]. split; [by apply is_exception_false|eauto].
Qed.

(** X17: when the conversion of a string-keyed host object returns a value
    other than the sentinel, that value is the plain object allocated
    for it, every key of the host object is a string, and the plain
    object is the result of setting, in iteration order, one property
    per entry: the key's text with what a conversion of the entry's
    value returned, which is never the sentinel. *)
Theorem converted_object_is_complete :
  forall (stack : nat) (env : JNIEnv) (context : JSContext) (value : nat)
         (entries : list (jref * jref)) (v : JSValue) (context' : JSContext),
    env value = JJsObject entries ->
    jobject_to_js_value (S stack) env context (Some value) = Ok (v, context') ->
    v <> JS_EXCEPTION ->
    v = JS_Obj (next_id context) /\
    exists pairs,
      heap context' !! next_id context
        = Some (JSPlainObject (set_properties ∅ pairs)) /\
      Forall2 (fun (entry : jref * jref) (pair : string * JSValue) =>
                 GetStringUTFChars env entry.1 = Some pair.1 /\
                 pair.2 <> JS_EXCEPTION /\
                 exists c1 c2,
                   jobject_to_js_value stack env c1 entry.2 = Ok (pair.2, c2))
        entries pairs.
Proof.
  intros stack env context value entries v context' Henv.
  rewrite (route_js_object _ _ _ _ (first_match_js_object _ _ _ Henv)).
  unfold java_map_to_js_object, method_map_entry_set. rewrite Henv.
  unfold JS_NewObject, alloc.
  destruct (java_object_loop _ _ _ _ _ _) as [[exit c1]| |] eqn:E; cbn [bind];
    [|done..].
  destruct (java_object_loop_exit _ _ _ _ _ _ _ _ E) as [-> | ->];
    intros [= <- <-] Hv; [done|]. split; [done|].
  apply (java_object_loop_complete stack env value (next_id context) entries ∅)
    in E; [exact E|cbn; lia|apply lookup_insert_eq].
Qed.

Lemma converted_object_is_complete_witness :
  exists context' pairs,
    jobject_to_js_value 2 MoreSamples.store MoreSamples.busy_runtime (Some 8)
      = Ok (JS_Obj 1, context') /\
    heap context' !! 1 = Some (JSPlainObject (set_properties ∅ pairs)) /\
    length pairs = 2.
Proof.
  assert (Hv : JS_Obj 1 <> JS_EXCEPTION) by discriminate.
  eexists _.
  destruct (converted_object_is_complete 1 MoreSamples.store
              MoreSamples.busy_runtime 8 _ _ _ eq_refl eq_refl Hv)
    as (_ & pairs & Hpairs & Hall).
  exists pairs. split; [reflexivity|]. split; [exact Hpairs|].
  symmetry. exact (Forall2_length _ _ _ Hall).
Defined.

Lemma object_array_loop_complete stack env value n :
  forall elements done c c',
    n < next_id c ->
    heap c !! n = Some (JSArray done) ->
    object_array_loop (jobject_to_js_value stack env) value elements
      (length done) (JS_Obj n) c = Ok (false, c') ->
    exists items,
      heap c' !! n = Some (JSArray (done ++ items)) /\
      Forall2 (fun e x => exists c1 c2,
                            jobject_to_js_value stack env c1 e = Ok (x, c2))
        elements items.
Proof.
  induction elements as [|element rest IH]; intros done c c' Hn Hdone;
    cbn [object_array_loop].
  - intros [= <-]. exists []. by rewrite app_nil_r.
  - destruct (IsSameObject _ _); [done|].
    destruct (jobject_to_js_value stack env c element) as [[x c1]| |] eqn:E;
      cbn [bind]; [|done..].
    pose proof (frame_jobject_to_js_value env stack _ _ _ _ E) as [[Hn1 Hh1] _].
    assert (Hdone1 : heap c1 !! n = Some (JSArray done))
      by (by rewrite Hh1).
    rewrite (set_index_append _ _ _ _ Hdone1).
    intros H.
    specialize (IH (done ++ [x])
      (with_heap c1 (<[n := JSArray (done ++ [x])]> (heap c1))) c').
    rewrite length_app, Nat.add_1_r in IH.
    destruct IH as (items & Hitems & Hall);
      [cbn; lia|apply lookup_insert_eq|exact H|].
    exists (x :: items). split; [by rewrite Hitems, <- app_assoc|].
    constructor; [eauto|done].
Qed.

(** X18: when the conversion of a host object array returns a value other
    than the sentinel, that value is the array allocated for it, and
    the array has exactly one slot per element, in index order, each
    holding what a conversion of that element returned, be it the
    sentinel. *)
Theorem converted_object_array_has_all_slots :
  forall (stack : nat) (env : JNIEnv) (context : JSContext) (value : nat)
         (name : string) (elements : list jref)
         (v : JSValue) (context' : JSContext),
    env value = JObjectArray name elements ->
    object_array_class name = true ->
    jobject_to_js_value (S stack) env context (Some value) = Ok (v, context') ->
    v <> JS_EXCEPTION ->
    v = JS_Obj (next_id context) /\
    exists items,
      heap context' !! next_id context = Some (JSArray items) /\
      length items = length elements /\
      Forall2 (fun e x => exists c1 c2,
                            jobject_to_js_value stack env c1 e = Ok (x, c2))
        elements items.
Proof.
  intros stack env context value name elements v context' Henv Hclass.
  rewrite (route_object_array _ _ _ _ _ _ Henv Hclass).
  unfold JS_NewArray, alloc.
  destruct (object_array_loop _ _ _ _ _ _) as [[b c1]| |] eqn:E; cbn [bind];
    [|done..].
  destruct b; intros [= <- <-] Hv; [done|]. split; [done|].
  apply (object_array_loop_complete stack env value (next_id context)
           elements []) in E as (items & Hitems & Hall);
    [|cbn; lia|apply lookup_insert_eq].
  exists items. split; [exact Hitems|]. split; [|exact Hall].
  symmetry. by eapply Forall2_length.
Qed.

Lemma converted_object_array_has_all_slots_witness :
  exists context' items,
    jobject_to_js_value 2 Samples.store MoreSamples.busy_runtime (Some 7)
      = Ok (JS_Obj 1, context') /\
    heap context' !! 1 = Some (JSArray items) /\
    length items = 2.
Proof.
  assert (Hv : JS_Obj 1 <> JS_EXCEPTION) by discriminate.
  eexists _.
  destruct (converted_object_array_has_all_slots 1 Samples.store
              MoreSamples.busy_runtime 7 _ _ _ _ eq_refl eq_refl eq_refl Hv)
    as (_ & items & Hitems & Hlen & _).
  exists items. split; [reflexivity|]. split; [exact Hitems|exact Hlen].
Defined.

(** X19: NULL, a boxed Boolean, Integer, Long, Float or Double and a
    String convert without touching the runtime: the conversion returns
    null, the boolean, the float64 number of the 32-bit integer, the
    int64 number of what an [int]-returning call reads, the float64
    number of the float or of the double, or the string, and the
    context is exactly the one it was called with. *)
Theorem scalars_leave_runtime_untouched :
  forall (stack : nat) (env : JNIEnv) (context : JSContext) (value : jref)
         (v : JSValue),
    scalar_value env value = Some v ->
    jobject_to_js_value (S stack) env context value = Ok (v, context) /\
    v <> JS_EXCEPTION /\ v <> JS_UNDEFINED.
Proof.
  intros stack env context value v Hv.
  split; [by apply convert_scalar|].
  destruct value as [a|]; cbn in Hv; [|by injection Hv as <-].
  destruct (env a); try discriminate Hv; by injection Hv as <-.
Qed.

Lemma scalars_leave_runtime_untouched_witness :
  jobject_to_js_value 1 MoreSamples.store MoreSamples.busy_runtime (Some 2)
    = Ok (JS_Float64 (double_of_jint 1), MoreSamples.busy_runtime).
Proof.
  apply (scalars_leave_runtime_untouched 0 MoreSamples.store
           MoreSamples.busy_runtime (Some 2) _ eq_refl).
Defined.
